(** * gridpilot: the chat endpoint's response extraction and composition

    A shallow embedding of the [/api/chat] handler of the Express server
    (the [app.post('/api/chat', ...)] block): the validation of the request
    body, the listeners attached to the spawned Python process, and the
    [close] callback that turns the accumulated standard output into the
    reply shown to the user.

    JavaScript strings are sequences of UTF-16 code units; they are modelled
    as lists of code units so that [length], [trim] and the regular
    expression's [.] mean what they mean in the engine. *)

From Stdlib Require Import String Ascii List NArith ZArith Bool Lia.
From Stdlib Require SpecFloat.
Import ListNotations.

(** ** JavaScript string primitives used by the handler *)

Module JS.

(** A UTF-16 code unit. *)
Definition char16 : Type := N.

Definition jsstring : Type := list char16.

(** An ASCII literal of the source as a JavaScript string. *)
Definition lit (s : string) : jsstring :=
  map N_of_ascii (list_ascii_of_string s).
Arguments lit s%_string.

(** ['\n'] *)
Definition LF : char16 := 10%N.

(** [a === b] on strings: code unit by code unit. *)
Fixpoint eqb (a b : jsstring) : bool :=
  match a, b with
  | [], [] => true
  | x :: a', y :: b' => N.eqb x y && eqb a' b'
  | _, _ => false
  end.

(** [s.split(sep)] for a separator of one code unit. The result is never
    empty: [''.split('\n')] is [['']]. *)
Fixpoint split (sep : char16) (s : jsstring) : list jsstring :=
  match s with
  | [] => [[]]
  | c :: rest =>
      if N.eqb c sep then [] :: split sep rest
      else match split sep rest with
           | l :: ls => (c :: l) :: ls
           | [] => [[c]]
           end
  end.

(** [parts.join(sep)] *)
Fixpoint join (sep : jsstring) (parts : list jsstring) : jsstring :=
  match parts with
  | [] => []
  | [p] => p
  | p :: rest => p ++ sep ++ join sep rest
  end.

(** [s.startsWith(p)] *)
Fixpoint startsWith (s p : jsstring) : bool :=
  match p, s with
  | [], _ => true
  | x :: p', y :: s' => N.eqb x y && startsWith s' p'
  | _ :: _, [] => false
  end.

(** [s.includes(p)] *)
Fixpoint includes (s p : jsstring) : bool :=
  startsWith s p ||
  match s with
  | [] => false
  | _ :: s' => includes s' p
  end.

(** ECMAScript LineTerminator: LF, CR, LS, PS. *)
Definition isLineTerminator (c : char16) : bool :=
  N.eqb c 10 || N.eqb c 13 || N.eqb c 8232 || N.eqb c 8233.

(** ECMAScript WhiteSpace: TAB, VT, FF, SP, NBSP, ZWNBSP and the code
    points of category Zs. *)
Definition isWhiteSpace (c : char16) : bool :=
  N.eqb c 9 || N.eqb c 11 || N.eqb c 12 || N.eqb c 32 || N.eqb c 160 ||
  N.eqb c 5760 || (N.leb 8192 c && N.leb c 8202) || N.eqb c 8239 ||
  N.eqb c 8287 || N.eqb c 12288 || N.eqb c 65279.

Definition isTrimmed (c : char16) : bool :=
  isWhiteSpace c || isLineTerminator c.

Fixpoint dropWhile (p : char16 -> bool) (s : jsstring) : jsstring :=
  match s with
  | [] => []
  | c :: rest => if p c then dropWhile p rest else s
  end.

(** [s.trim()]: white space and line terminators removed at both ends. *)
Definition trim (s : jsstring) : jsstring :=
  rev (dropWhile isTrimmed (rev (dropWhile isTrimmed s))).

(** The class [[\w_]] of a regular expression without flags. *)
Definition isWord (c : char16) : bool :=
  (N.leb 48 c && N.leb c 57) || (N.leb 65 c && N.leb c 90) ||
  (N.leb 97 c && N.leb c 122) || N.eqb c 95.

(** The longest prefix of [s] whose code units satisfy [p], and the rest. *)
Fixpoint span (p : char16 -> bool) (s : jsstring) : jsstring * jsstring :=
  match s with
  | [] => ([], [])
  | c :: rest =>
      if p c then let (a, b) := span p rest in (c :: a, b)
      else ([], s)
  end.

(** [value || fallback] on strings: the empty string is falsy. *)
Definition orElse (value fallback : jsstring) : jsstring :=
  match value with
  | [] => fallback
  | _ :: _ => value
  end.

End JS.

Import JS.

(** ** The response composer (the success branch of the [close] callback) *)

(** An element of [agentResponses]: [{ agent, message }]. *)
Record AgentMessage : Type := mkAgentMessage {
  agent : jsstring;
  message : jsstring
}.

(** [line.match(/^\[([\w_]+)\]: (.+)$/)]: the two captured groups, or [None]
    for [null]. The expression has no flags, so [^] and [$] are the ends of
    the line, [.] is any code unit but a line terminator, and the greedy
    [[\w_]+] followed by [\]] can only stop at the first code unit that is
    not a word character. *)
Definition agentMatch (line : jsstring) : option (jsstring * jsstring) :=
  match line with
  | c :: rest =>
      if N.eqb c 91 then
        match span isWord rest with
        | ((_ :: _) as name, c1 :: c2 :: c3 :: ((_ :: _) as text)) =>
            if N.eqb c1 93 && N.eqb c2 58 && N.eqb c3 32 &&
               forallb (fun x => negb (isLineTerminator x)) text
            then Some (name, text)
            else None
        | _ => None
        end
      else None
  | [] => None
  end.

Definition NoneText : jsstring := lit "None".
Definition CAISO_Market : jsstring := lit "CAISO_Market".
Definition Weather : jsstring := lit "Weather".
Definition noResponse : jsstring := lit "No response generated".

(** One iteration of the loop [for (const line of lines)]: push the match
    unless its text is ['None']. *)
Definition pushAgentMatch (agentResponses : list AgentMessage)
    (line : jsstring) : list AgentMessage :=
  match agentMatch line with
  | Some (name, text) =>
      if negb (eqb text NoneText)
      then agentResponses ++ [mkAgentMessage name text]
      else agentResponses
  | None => agentResponses
  end.

(** The array [agentResponses] after the loop over [lines]. *)
Definition extractAgentResponses (lines : list jsstring) : list AgentMessage :=
  fold_left pushAgentMatch lines [].

(** The predicate of the override's filter:
    [r.message !== 'None' && r.message.length > 10]. *)
Definition qualifies (r : AgentMessage) : bool :=
  negb (eqb (message r) NoneText) && Nat.ltb 10 (List.length (message r)).

(** The predicate of the fallback's filter. *)
Definition keepRawLine (line : jsstring) : bool :=
  negb (startsWith line (lit "User:")) &&
  negb (includes line (lit "UserWarning")) &&
  negb (includes line (lit "INFO")) &&
  negb (includes line (lit "DEBUG")) &&
  negb (includes line (lit "Warning:")) &&
  Nat.ltb 0 (List.length (trim line)).

(** The override's value: the qualifying messages joined by a blank line. *)
Definition combinedResponse (agentResponses : list AgentMessage) : jsstring :=
  join [LF; LF] (map message (filter qualifies agentResponses)).

(** The fallback's value: the kept raw lines joined by a newline. *)
Definition rawFallback (dataString : jsstring) : jsstring :=
  join [LF] (filter keepRawLine (split LF dataString)).

(** [formattedResponse] as it stands just before [res.json]. *)
Definition formattedResponse (dataString : jsstring) : jsstring :=
  let lines := split LF dataString in
  let agentResponses := extractAgentResponses lines in
  if Nat.ltb 0 (List.length agentResponses) then
    let lastResponse :=
      nth (List.length agentResponses - 1) agentResponses
          (mkAgentMessage [] []) in
    let marketData :=
      filter (fun r => eqb (agent r) CAISO_Market) agentResponses in
    let weatherData :=
      filter (fun r => eqb (agent r) Weather) agentResponses in
    if Nat.ltb 0 (List.length marketData) || Nat.ltb 0 (List.length weatherData)
    then combinedResponse agentResponses
    else message lastResponse
  else rawFallback dataString.

(** The string sent as [response]:
    [formattedResponse || 'No response generated']. *)
Definition composedReply (dataString : jsstring) : jsstring :=
  orElse (formattedResponse dataString) noResponse.

(** The array [agentResponses] built from the whole of [dataString]. *)
Definition agentMessages (dataString : jsstring) : list AgentMessage :=
  extractAgentResponses (split LF dataString).

(** ** The request handler around the composer *)

#[local] Unset Elimination Schemes.

(** What [req.body] and its fields can hold after [express.json()]. A number
    is a binary64 value; an object is the list of its own properties, each
    key once. *)
Inductive jsvalue : Type :=
| JUndefined
| JNull
| JBool (b : bool)
| JNumber (x : SpecFloat.spec_float)
| JString (s : jsstring)
| JArray (items : list jsvalue)
| JObject (fields : list (jsstring * jsvalue)).

#[local] Set Elimination Schemes.

(** ToBoolean: [undefined], [null], [false], zero, NaN and the empty string
    are falsy, everything else is truthy. *)
Definition toBoolean (v : jsvalue) : bool :=
  match v with
  | JUndefined | JNull => false
  | JBool b => b
  | JNumber (SpecFloat.S754_zero _) | JNumber SpecFloat.S754_nan => false
  | JNumber _ => true
  | JString [] => false
  | JString (_ :: _) => true
  | JArray _ | JObject _ => true
  end.

Fixpoint lookupField (key : jsstring) (fields : list (jsstring * jsvalue))
    : jsvalue :=
  match fields with
  | [] => JUndefined
  | (k, v) :: rest => if eqb k key then v else lookupField key rest
  end.

(** [const { message } = req.body]: destructuring [undefined] or [null]
    throws a TypeError ([None]); an object yields its property or
    [undefined]; no other value has a property named [message]. *)
Definition destructureMessage (body : jsvalue) : option jsvalue :=
  match body with
  | JUndefined | JNull => None
  | JObject fields => Some (lookupField (lit "message") fields)
  | _ => Some JUndefined
  end.

(** The arguments of the handler's [console.error] calls. *)
Inductive logLine : Type :=
| LogExitCode (code : option Z)
| LogPythonError (errorString : jsstring)
| LogBackendError.

(** The JSON bodies the handler sends. *)
Inductive replyBody : Type :=
| ErrorBody (error : jsstring)
| ResponseBody (response : jsstring).

(** What the handler does to the outside world, in order. *)
Inductive effect : Type :=
| Spawn (file : jsstring) (args : list jsvalue)
| ConsoleError (line : logLine)
| Send (status : N) (body : replyBody).

(** The two accumulators of the handler. *)
Record buffers : Type := mkBuffers {
  dataString : jsstring;
  errorString : jsstring
}.

(** The [close] callback. [code] is the exit status, [None] for the [null]
    a child killed by a signal reports; [res.json] without [res.status]
    answers 200. *)
Definition onClose (code : option Z) (st : buffers) : list effect :=
  let isZero := match code with Some c => Z.eqb c 0 | None => false end in
  if negb isZero then
    [ ConsoleError (LogExitCode code);
      ConsoleError (LogPythonError (errorString st));
      Send 500 (ErrorBody
        (lit "Failed to process request. Please check server logs.")) ]
  else
    [ Send 200 (ResponseBody (composedReply (dataString st))) ].

(** The events a ChildProcess emits. The handler listens to [data] on both
    streams and to [close]; it attaches no listener to [error]. *)
Inductive childEvent : Type :=
| StdoutData (chunk : jsstring)
| StderrData (chunk : jsstring)
| Close (code : option Z)
| ErrorEvent.

(** How a request ends: the effects performed, and whether an [error] event
    went unhandled (an EventEmitter throws it when it has no listener, and
    no code of the handler runs for it). *)
Record outcome : Type := mkOutcome {
  effects : list effect;
  unhandledError : bool
}.

(** The listeners run on the child's events in order; [close] is the last
    event a child emits. *)
Fixpoint dispatch (st : buffers) (events : list childEvent) : outcome :=
  match events with
  | [] => mkOutcome [] false
  | StdoutData chunk :: rest =>
      dispatch (mkBuffers (dataString st ++ chunk) (errorString st)) rest
  | StderrData chunk :: rest =>
      dispatch (mkBuffers (dataString st) (errorString st ++ chunk)) rest
  | Close code :: _ => mkOutcome (onClose code st) false
  | ErrorEvent :: _ => mkOutcome [] true
  end.

(** What [spawn] does when the handler calls it: it throws, or it returns a
    child that goes on to emit events. *)
Inductive spawnResult : Type :=
| SpawnThrows
| Spawned (events : list childEvent).

(** The [catch] block of the handler. *)
Definition catchBlock : list effect :=
  [ ConsoleError LogBackendError;
    Send 500 (ErrorBody (lit "Failed to get response")) ].

(** [process.env.PYTHON_PATH || 'python'] *)
Definition pythonPath (pythonPathEnv : option jsstring) : jsstring :=
  match pythonPathEnv with
  | Some p => orElse p (lit "python")
  | None => lit "python"
  end.

(** [spawn(pythonPath, ['agents/gridpilot_agent.py', message], ...)] *)
Definition spawnCall (pythonPathEnv : option jsstring) (message : jsvalue)
    : effect :=
  Spawn (pythonPath pythonPathEnv)
        [JString (lit "agents/gridpilot_agent.py"); message].

(** The handler of [POST /api/chat]. [pythonPathEnv] is
    [process.env.PYTHON_PATH]; [child] is the environment's answer to the
    call of [spawn], looked at only once that call is made. *)
Definition chatHandler (pythonPathEnv : option jsstring) (body : jsvalue)
    (child : spawnResult) : outcome :=
  match destructureMessage body with
  | None => mkOutcome catchBlock false
  | Some message =>
      if negb (toBoolean message) then
        mkOutcome [Send 400 (ErrorBody (lit "Message is required"))] false
      else
        match child with
        | SpawnThrows =>
            mkOutcome (spawnCall pythonPathEnv message :: catchBlock) false
        | Spawned events =>
            let r := dispatch (mkBuffers [] []) events in
            mkOutcome (spawnCall pythonPathEnv message :: effects r)
                      (unhandledError r)
        end
  end.

(** ** Vocabulary of the properties *)

(** Some message of the sequence comes from the market-data agent or from
    the weather-data agent. *)
Definition hasDataBearing (rs : list AgentMessage) : Prop :=
  exists r, In r rs /\ (agent r = CAISO_Market \/ agent r = Weather).

(** No line of the output matches the tagged format. *)
Definition noTaggedLine (raw : jsstring) : Prop :=
  forall line, In line (split LF raw) -> agentMatch line = None.

(** The message a single line contributes to [agentResponses], if any. *)
Definition lineMessages (line : jsstring) : list AgentMessage :=
  pushAgentMatch [] line.

(** The outputs of the specification's scenarios. *)
Definition scenario1 : jsstring :=
  lit "[Weather]: Cloud cover 85%" ++ [LF] ++
  lit "[CAISO_Market]: Load down 300MW" ++ [LF] ++
  lit "[Coordinator]: Deviation confirmed.".

Definition scenario2 : jsstring := lit "[Coordinator]: Deviation confirmed.".

Definition scenario3 : jsstring :=
  lit "INFO: starting up" ++ [LF] ++ lit "User: hello" ++ [LF] ++
  lit "Plain diagnostic line" ++ [LF].

(** Everything the child wrote to standard output, and to standard error,
    in a run of events. *)
Fixpoint stdoutOf (events : list childEvent) : jsstring :=
  match events with
  | [] => []
  | StdoutData chunk :: rest => chunk ++ stdoutOf rest
  | _ :: rest => stdoutOf rest
  end.

Fixpoint stderrOf (events : list childEvent) : jsstring :=
  match events with
  | [] => []
  | StderrData chunk :: rest => chunk ++ stderrOf rest
  | _ :: rest => stderrOf rest
  end.

(** A run of [data] events only. *)
Definition dataOnly (events : list childEvent) : bool :=
  forallb (fun e => match e with
                    | StdoutData _ | StderrData _ => true
                    | _ => false
                    end) events.

(** The generic failure sent after a non-zero exit. *)
Definition processFailure : effect :=
  Send 500 (ErrorBody
    (lit "Failed to process request. Please check server logs.")).

(** An effect that answers the request. *)
Definition isSend (e : effect) : bool :=
  match e with Send _ _ => true | _ => false end.

(** An effect that starts the external process. *)
Definition isSpawn (e : effect) : bool :=
  match e with Spawn _ _ => true | _ => false end.

(** The answers a request received. *)
Definition sends (o : outcome) : list effect := filter isSend (effects o).

(** A string that is not empty. *)
Definition nonEmpty (s : jsstring) : bool :=
  match s with [] => false | _ :: _ => true end.

(** ** The chat page (public/script.js) *)

(** [value.key] for a key that no primitive, array or prototype defines:
    reading it off [undefined] or [null] throws a TypeError ([None]). *)
Definition getProperty (key : jsstring) (value : jsvalue) : option jsvalue :=
  match value with
  | JUndefined | JNull => None
  | JObject fields => Some (lookupField key fields)
  | _ => Some JUndefined
  end.

(** What an element shows: text assigned to [textContent], or markup
    assigned to [innerHTML]. *)
Inductive nodeContent : Type :=
| TextContent (text : jsstring)
| InnerHTML (markup : jsstring).

(** A [div] made by [document.createElement]. [node] is the identity of the
    DOM object. *)
Record element : Type := mkElement {
  node : nat;
  classList : list jsstring;
  elementId : jsstring;
  content : nodeContent
}.

(** The part of the page the script reads and writes: the children of
    [#chat-history] in order, the value of [#user-input], the [disabled]
    flags of the input and of [#send-btn], whether [focus()] was last
    called on the input, and the identity the next created element will
    have. The scroll offset is layout and is left out. *)
Record page : Type := mkPage {
  chatHistory : list element;
  inputValue : jsstring;
  inputDisabled : bool;
  sendDisabled : bool;
  inputFocused : bool;
  nextNode : nat
}.

(** The string a value becomes when it is assigned to [textContent], a
    nullable DOMString: [null] and [undefined] clear the text. [toStr] is
    ToString on the values that are not strings. *)
Definition textOf (toStr : jsvalue -> jsstring) (v : jsvalue) : jsstring :=
  match v with
  | JString s => s
  | JUndefined | JNull => []
  | _ => toStr v
  end.

(** [prefix + v] for a string [prefix]. *)
Definition stringPlus (toStr : jsvalue -> jsstring) (prefix : jsstring)
    (v : jsvalue) : jsstring :=
  prefix ++ match v with JString s => s | _ => toStr v end.

(** [addMessage(text, sender)] *)
Definition addMessage (toStr : jsvalue -> jsstring) (text : jsvalue)
    (sender : jsstring) (p : page) : page :=
  let messageDiv :=
    mkElement (nextNode p)
      [lit "message"; sender ++ lit "-message"]
      []
      (TextContent (textOf toStr text)) in
  mkPage (chatHistory p ++ [messageDiv]) (inputValue p) (inputDisabled p)
         (sendDisabled p) (inputFocused p) (S (nextNode p)).

(** One line of the template literal of [addTypingIndicator]. *)
Definition dotLine : jsstring :=
  [LF] ++ lit "            <div class=" ++ [34%N] ++ lit "dot" ++ [34%N] ++
  lit "></div>".

(** The template literal assigned to [innerHTML]. *)
Definition typingDots : jsstring :=
  dotLine ++ dotLine ++ dotLine ++ [LF] ++ lit "        ".

(** [addTypingIndicator()]: the page, and the element it returns. *)
Definition addTypingIndicator (p : page) : page * nat :=
  let indicatorDiv :=
    mkElement (nextNode p) [lit "typing-indicator"] (lit "typing-indicator")
      (InnerHTML typingDots) in
  (mkPage (chatHistory p ++ [indicatorDiv]) (inputValue p) (inputDisabled p)
          (sendDisabled p) (inputFocused p) (S (nextNode p)),
   nextNode p).

(** [removeTypingIndicator(indicator)]: the element is taken out of its
    parent if it has one. *)
Definition removeTypingIndicator (indicator : nat) (p : page) : page :=
  mkPage (filter (fun e => negb (Nat.eqb (node e) indicator)) (chatHistory p))
         (inputValue p) (inputDisabled p) (sendDisabled p) (inputFocused p)
         (nextNode p).

(** How [fetch] followed by [response.json()] ends: a rejection (no
    connection, a body that is not JSON), or the parsed body. *)
Inductive fetchResult : Type :=
| FetchRejects
| FetchJson (data : jsvalue).

Definition apology : jsstring :=
  lit "Sorry, something went wrong. Please try again.".

(** The [catch] block of [sendMessage]; the flag records the call of
    [console.error]. *)
Definition sendCatch (toStr : jsvalue -> jsstring) (indicator : nat)
    (p : page) : page * bool :=
  (addMessage toStr (JString apology) (lit "bot")
     (removeTypingIndicator indicator p),
   true).

(** The [finally] block of [sendMessage]. *)
Definition sendFinally (p : page) : page :=
  mkPage (chatHistory p) (inputValue p) false false true (nextNode p).

(** [sendMessage] from the moment the awaited [fetch] settles. *)
Definition sendMessageSettle (toStr : jsvalue -> jsstring)
    (answer : fetchResult) (indicator : nat) (p : page) : page * bool :=
  let (p', logged) :=
    match answer with
    | FetchRejects => sendCatch toStr indicator p
    | FetchJson data =>
        let p1 := removeTypingIndicator indicator p in
        match getProperty (lit "error") data with
        | None => sendCatch toStr indicator p1
        | Some error =>
            if toBoolean error then
              (addMessage toStr
                 (JString (stringPlus toStr (lit "Error: ") error))
                 (lit "bot") p1, false)
            else
              match getProperty (lit "response") data with
              | None => sendCatch toStr indicator p1
              | Some response =>
                  (addMessage toStr response (lit "bot") p1, false)
              end
        end
    end in
  (sendFinally p', logged).

(** [sendMessage] up to the call of [fetch]: [None] when it returns at
    once, otherwise the page, the value put in the request body and the
    typing indicator. *)
Definition sendMessageStart (toStr : jsvalue -> jsstring) (p : page)
    : option (page * jsvalue * nat) :=
  let message := trim (inputValue p) in
  if negb (nonEmpty message) then None
  else
    let p1 := addMessage toStr (JString message) (lit "user") p in
    let p2 :=
      mkPage (chatHistory p1) [] true true (inputFocused p1) (nextNode p1) in
    let (p3, loadingIndicator) := addTypingIndicator p2 in
    Some (p3, JObject [(lit "message", JString message)], loadingIndicator).

(** [sendMessage] against a server that answers the request body. *)
Definition sendMessage (toStr : jsvalue -> jsstring)
    (server : jsvalue -> fetchResult) (p : page) : page * bool :=
  match sendMessageStart toStr p with
  | None => (p, false)
  | Some (p', body, loadingIndicator) =>
      sendMessageSettle toStr (server body) loadingIndicator p'
  end.

(** The [keypress] listener of the input. *)
Definition onKeypress (toStr : jsvalue -> jsstring)
    (server : jsvalue -> fetchResult) (key : jsstring) (p : page)
    : page * bool :=
  if eqb key (lit "Enter") then sendMessage toStr server p else (p, false).

(** The object the server hands to [res.json]. *)
Definition replyJson (b : replyBody) : jsvalue :=
  match b with
  | ErrorBody error => JObject [(lit "error", JString error)]
  | ResponseBody response => JObject [(lit "response", JString response)]
  end.


(** A message bubble as [addMessage] builds it. *)
Definition bubble (n : nat) (sender text : jsstring) : element :=
  mkElement n [lit "message"; sender ++ lit "-message"] []
            (TextContent text).

(** * Properties *)

(** ** The string primitives meet their ECMAScript descriptions *)

Section StringFacts.

Lemma eqb_eq (a b : jsstring) : eqb a b = true <-> a = b.
Proof.
  revert b; induction a as [|x a IH]; intros [|y b]; simpl;
    try (split; [discriminate | discriminate]); try tauto.
  rewrite andb_true_iff, N.eqb_eq, IH.
  split; [intros [-> ->]; reflexivity | intros H; inversion H; auto].
Qed.

Lemma eqb_neq (a b : jsstring) : eqb a b = false <-> a <> b.
Proof.
  rewrite <- eqb_eq. destruct (eqb a b); split; congruence.
Qed.

Section Splitting.

Variable sep : char16.

Lemma split_not_nil (s : jsstring) : split sep s <> [].
Proof.
  destruct s as [|c s]; simpl; [discriminate|].
  destruct (N.eqb c sep); [discriminate|].
  destruct (split sep s); discriminate.
Qed.

(** No piece of a split contains the separator. *)
Lemma split_no_sep (s l : jsstring) :
  In l (split sep s) -> ~ In sep l.
Proof.
  revert l; induction s as [|c s IH]; simpl; intros l Hl.
  - destruct Hl as [<- | []]. intros [].
  - destruct (N.eqb_spec c sep) as [-> | Hne].
    + destruct Hl as [<- | Hl]; [intros [] | auto].
    + destruct (split sep s) as [|l0 ls] eqn:E.
      * destruct Hl as [<- | []]. intros [H | []]; congruence.
      * destruct Hl as [<- | Hl].
        -- intros [H | H]; [congruence|]. apply (IH l0); simpl; auto.
        -- apply IH; simpl; auto.
Qed.

(** Joining the pieces with the separator gives the string back. *)
Lemma join_split (s : jsstring) :
  join [sep] (split sep s) = s.
Proof.
  induction s as [|c s IH]; simpl; [reflexivity|].
  destruct (N.eqb_spec c sep) as [-> | Hne].
  - pose proof (split_not_nil s) as Hnn.
    destruct (split sep s) as [|l ls]; [congruence|].
    simpl in *. now rewrite IH.
  - destruct (split sep s) as [|l ls] eqn:E; simpl in *.
    + now rewrite <- IH.
    + destruct ls; simpl in *; now rewrite <- IH.
Qed.

Lemma split_free (l : jsstring) :
  ~ In sep l -> split sep l = [l].
Proof.
  induction l as [|c l IH]; simpl; intros Hl; [reflexivity|].
  destruct (N.eqb_spec c sep) as [-> | Hne]; [tauto|].
  rewrite IH; [reflexivity | tauto].
Qed.

Lemma split_app_sep (l s : jsstring) :
  ~ In sep l -> split sep (l ++ sep :: s) = l :: split sep s.
Proof.
  induction l as [|c l IH]; simpl; intros Hl.
  - now rewrite N.eqb_refl.
  - destruct (N.eqb_spec c sep) as [-> | Hne]; [tauto|].
    rewrite IH; [reflexivity | tauto].
Qed.

(** Splitting a join of separator-free pieces gives the pieces back. *)
Lemma split_join (ls : list jsstring) :
  ls <> [] ->
  (forall l, In l ls -> ~ In sep l) ->
  split sep (join [sep] ls) = ls.
Proof.
  induction ls as [|l ls IH]; [congruence|]; intros _ Hfree.
  assert (Hl : ~ In sep l) by (apply Hfree; simpl; auto).
  destruct ls as [|l' ls'].
  - now apply split_free.
  - change (join [sep] (l :: l' :: ls'))
      with (l ++ sep :: join [sep] (l' :: ls')).
    rewrite split_app_sep by assumption.
    rewrite IH; [reflexivity | discriminate |].
    intros; apply Hfree; simpl; auto.
Qed.

End Splitting.

Lemma startsWith_spec (s p : jsstring) :
  startsWith s p = true <-> exists t, s = p ++ t.
Proof.
  revert s; induction p as [|x p IH]; intros s.
  - destruct s; simpl; split; eauto.
  - destruct s as [|y s]; simpl.
    + split; [discriminate | intros [t Ht]; discriminate].
    + rewrite andb_true_iff, N.eqb_eq, IH. split.
      * intros [-> [t ->]]. now exists t.
      * intros [t Ht]. inversion Ht; subst. split; eauto.
Qed.

Lemma includes_spec (s p : jsstring) :
  includes s p = true <-> exists a b, s = a ++ p ++ b.
Proof.
  induction s as [|y s IH]; simpl.
  - rewrite orb_false_r. destruct p as [|x p]; simpl.
    + split; [intros _; now exists [], [] | reflexivity].
    + split; [discriminate|].
      intros (a & b & H). destruct a; discriminate.
  - rewrite orb_true_iff, IH.
    change (match p with
            | [] => true
            | x :: p' => N.eqb x y && startsWith s p'
            end) with (startsWith (y :: s) p).
    rewrite startsWith_spec. split.
    + intros [[t Ht] | (a & b & Hab)].
      * exists [], t. exact Ht.
      * exists (y :: a), b. simpl. now rewrite Hab.
    + intros (a & b & Hab). destruct a as [|z a]; simpl in Hab.
      * left. now exists b.
      * right. inversion Hab; subst. now exists a, b.
Qed.

End StringFacts.

Section MatchFacts.

Section Scanning.

Variable p : char16 -> bool.

Lemma span_spec (s a b : jsstring) :
  span p s = (a, b) ->
  s = a ++ b /\ forallb p a = true /\
  match b with [] => True | c :: _ => p c = false end.
Proof.
  revert a b; induction s as [|c s IH]; simpl; intros a b H.
  - inversion H; subst. auto.
  - destruct (p c) eqn:Hc.
    + destruct (span p s) as [a' b'] eqn:E. inversion H; subst.
      destruct (IH a' b eq_refl) as (-> & Ha & Hb).
      simpl. rewrite Hc, Ha. auto.
    + inversion H; subst. simpl. auto.
Qed.

Lemma span_app (a b : jsstring) :
  forallb p a = true ->
  match b with [] => True | c :: _ => p c = false end ->
  span p (a ++ b) = (a, b).
Proof.
  induction a as [|x a IH]; simpl; intros Ha Hb.
  - destruct b as [|c b]; simpl; [reflexivity | now rewrite Hb].
  - apply andb_true_iff in Ha as [Hx Ha].
    now rewrite Hx, IH.
Qed.

Lemma dropWhile_nil (s : jsstring) :
  dropWhile p s = [] <-> forallb p s = true.
Proof.
  induction s as [|c s IH]; simpl; [tauto|].
  destruct (p c); simpl; [exact IH | split; discriminate].
Qed.

Lemma dropWhile_incl (s : jsstring) (c : char16) :
  In c (dropWhile p s) -> In c s.
Proof.
  induction s as [|x s IH]; simpl; [tauto|].
  destruct (p x); simpl; tauto.
Qed.

Lemma dropWhile_keeps (s : jsstring) (c : char16) :
  In c s -> p c = false -> In c (dropWhile p s).
Proof.
  induction s as [|x s IH]; simpl; [tauto|].
  intros [-> | Hin] Hc.
  - rewrite Hc. simpl. auto.
  - destruct (p x); simpl; auto.
Qed.

Lemma forallb_false_In (s : jsstring) :
  forallb p s = false <-> exists c, In c s /\ p c = false.
Proof.
  induction s as [|x s IH]; simpl.
  - split; [discriminate | intros (c & [] & _)].
  - rewrite andb_false_iff, IH. split.
    + intros [Hx | (c & Hc & Hp)]; eauto.
    + intros (c & [-> | Hc] & Hp); eauto.
Qed.

End Scanning.

(** The language of [/^\[([\w_]+)\]: (.+)$/] and its two groups: a line
    matches exactly when it is [[], a non-empty run of word characters,
    []: ] and a non-empty text free of line terminators, to its end. *)
Lemma agentMatch_spec (line name text : jsstring) :
  agentMatch line = Some (name, text) <->
  line = lit "[" ++ name ++ lit "]: " ++ text /\
  name <> [] /\ forallb isWord name = true /\
  text <> [] /\ forallb (fun x => negb (isLineTerminator x)) text = true.
Proof.
  split.
  - unfold agentMatch. destruct line as [|c rest]; [discriminate|].
    destruct (N.eqb_spec c 91) as [-> | _]; [|discriminate].
    destruct (span isWord rest) as [a b] eqn:E.
    apply span_spec in E as (-> & Ha & _).
    destruct a as [|a0 a]; [discriminate|].
    destruct b as [|c1 [|c2 [|c3 [|t0 t]]]]; try discriminate.
    destruct (N.eqb_spec c1 93) as [-> | _]; [|discriminate].
    destruct (N.eqb_spec c2 58) as [-> | _]; [|discriminate].
    destruct (N.eqb_spec c3 32) as [-> | _]; [|discriminate].
    cbn [andb].
    match goal with
    | |- context [forallb ?f (t0 :: t)] =>
        destruct (forallb f (t0 :: t)) eqn:Ht; [|discriminate]
    end.
    intros H; inversion H; subst.
    repeat split; try discriminate; assumption.
  - intros (-> & Hn & Hw & Ht & Hl).
    change (lit "[" ++ name ++ lit "]: " ++ text)
      with (91%N :: (name ++ 93%N :: 58%N :: 32%N :: text)).
    unfold agentMatch. rewrite N.eqb_refl.
    rewrite span_app by (assumption || reflexivity).
    destruct name as [|a0 a]; [congruence|].
    destruct text as [|t0 t]; [congruence|].
    rewrite Hl. reflexivity.
Qed.

(** The text of a match is never empty. *)
Lemma agentMatch_text_nonempty (line name text : jsstring) :
  agentMatch line = Some (name, text) -> text <> [].
Proof. intros H. now apply agentMatch_spec in H. Qed.

(** [line.trim().length > 0] holds exactly when some code unit of the
    line is neither white space nor a line terminator. *)
Lemma trim_nonblank (s : jsstring) :
  Nat.ltb 0 (List.length (trim s)) = true <->
  exists c, In c s /\ isTrimmed c = false.
Proof.
  unfold trim. rewrite length_rev, Nat.ltb_lt.
  set (inner := rev (dropWhile isTrimmed s)).
  assert (Hlen : 0 < List.length (dropWhile isTrimmed inner) <->
                 forallb isTrimmed inner = false).
  { pose proof (dropWhile_nil isTrimmed inner) as Hn.
    destruct (dropWhile isTrimmed inner) as [|y ys] eqn:E; simpl.
    - rewrite (proj1 Hn eq_refl). split; [lia | discriminate].
    - destruct (forallb isTrimmed inner); [|split; [reflexivity | lia]].
      now specialize (proj2 Hn eq_refl). }
  rewrite Hlen, forallb_false_In. subst inner. split.
  - intros (c & Hc & Hp). exists c. split; [|exact Hp].
    apply in_rev in Hc. eapply dropWhile_incl; eauto.
  - intros (c & Hc & Hp). exists c. split; [|exact Hp].
    apply -> in_rev. now apply dropWhile_keeps.
Qed.

End MatchFacts.

(** ** The composer *)

Section ComposerFacts.

Lemma pushAgentMatch_app (acc : list AgentMessage) (line : jsstring) :
  pushAgentMatch acc line = acc ++ lineMessages line.
Proof.
  unfold lineMessages, pushAgentMatch.
  destruct (agentMatch line) as [[name text]|]; [|now rewrite app_nil_r].
  destruct (negb (eqb text NoneText)); [reflexivity | now rewrite app_nil_r].
Qed.

Lemma fold_pushAgentMatch (lines : list jsstring) (acc : list AgentMessage) :
  fold_left pushAgentMatch lines acc = acc ++ flat_map lineMessages lines.
Proof.
  revert acc; induction lines as [|l lines IH]; intros acc; simpl.
  - now rewrite app_nil_r.
  - now rewrite IH, pushAgentMatch_app, <- app_assoc.
Qed.

(** The loop collects the surviving matches in the order of the lines. *)
Lemma extract_in_line_order (lines : list jsstring) :
  extractAgentResponses lines = flat_map lineMessages lines.
Proof. unfold extractAgentResponses. now rewrite fold_pushAgentMatch. Qed.

Lemma In_lineMessages (line : jsstring) (r : AgentMessage) :
  In r (lineMessages line) <->
  agentMatch line = Some (agent r, message r) /\ message r <> NoneText.
Proof.
  unfold lineMessages, pushAgentMatch.
  destruct (agentMatch line) as [[name text]|].
  - destruct (eqb text NoneText) eqn:E; simpl.
    + apply eqb_eq in E. split; [tauto|].
      intros [H Hn]. inversion H; subst. congruence.
    + apply eqb_neq in E. split.
      * intros [<- | []]. simpl. auto.
      * intros [H _]. inversion H; subst. destruct r; simpl; auto.
  - simpl. split; [tauto | intros [H _]; discriminate].
Qed.

(** A message is in the sequence exactly when some line matches with its
    name and text, and the text is not ['None']. *)
Lemma In_agentMessages (raw : jsstring) (r : AgentMessage) :
  In r (agentMessages raw) <->
  exists line, In line (split LF raw) /\
    agentMatch line = Some (agent r, message r) /\ message r <> NoneText.
Proof.
  unfold agentMessages. rewrite extract_in_line_order, in_flat_map.
  split; intros (line & Hin & H); exists line; split; auto;
    now apply In_lineMessages.
Qed.

Lemma agentMessages_text_nonempty (raw : jsstring) (r : AgentMessage) :
  In r (agentMessages raw) -> message r <> [].
Proof.
  intros H. apply In_agentMessages in H as (line & _ & Hm & _).
  eapply agentMatch_text_nonempty; eauto.
Qed.

Lemma agentMessages_nil (raw : jsstring) :
  agentMessages raw = [] <->
  forall line name text, In line (split LF raw) ->
    agentMatch line = Some (name, text) -> text = NoneText.
Proof.
  split.
  - intros E line name text Hin Hm.
    destruct (eqb text NoneText) eqn:Ht; [now apply eqb_eq|].
    apply eqb_neq in Ht.
    assert (In (mkAgentMessage name text) (agentMessages raw)) as Hr.
    { apply In_agentMessages. exists line. simpl. auto. }
    rewrite E in Hr. destruct Hr.
  - intros H. destruct (agentMessages raw) as [|r rs] eqn:E; [reflexivity|].
    assert (In r (agentMessages raw)) as Hr by (rewrite E; simpl; auto).
    apply In_agentMessages in Hr as (line & Hin & Hm & Hn).
    exfalso. apply Hn. eapply H; eauto.
Qed.

Lemma filter_nonempty {A : Type} (f : A -> bool) (l : list A) :
  Nat.ltb 0 (List.length (filter f l)) = true <->
  exists x, In x l /\ f x = true.
Proof.
  rewrite Nat.ltb_lt. split.
  - intros H. destruct (filter f l) as [|x xs] eqn:E; [simpl in H; lia|].
    exists x. apply filter_In. rewrite E. simpl. auto.
  - intros (x & Hx & Hf).
    assert (In x (filter f l)) as Hin by (apply filter_In; auto).
    destruct (filter f l); [destruct Hin | simpl; lia].
Qed.

(** The test [marketData.length > 0 || weatherData.length > 0]. *)
Lemma override_test (rs : list AgentMessage) :
  Nat.ltb 0 (List.length (filter (fun r => eqb (agent r) CAISO_Market) rs))
  || Nat.ltb 0 (List.length (filter (fun r => eqb (agent r) Weather) rs))
  = true <-> hasDataBearing rs.
Proof.
  rewrite orb_true_iff, !filter_nonempty. unfold hasDataBearing. split.
  - intros [(r & Hr & E) | (r & Hr & E)]; apply eqb_eq in E; eauto.
  - intros (r & Hr & [E | E]); [left | right]; exists r;
      (split; [auto | now apply eqb_eq]).
Qed.

Lemma qualifies_spec (r : AgentMessage) :
  qualifies r = true <->
  message r <> NoneText /\ 10 < List.length (message r).
Proof.
  unfold qualifies.
  rewrite andb_true_iff, negb_true_iff, eqb_neq, Nat.ltb_lt. tauto.
Qed.

(** With a data-bearing message in the sequence the candidate is the
    combined response. *)
Lemma formattedResponse_override (raw : jsstring) :
  hasDataBearing (agentMessages raw) ->
  formattedResponse raw = combinedResponse (agentMessages raw).
Proof.
  intros H. unfold formattedResponse. fold (agentMessages raw). cbv zeta.
  assert (Nat.ltb 0 (List.length (agentMessages raw)) = true) as ->.
  { destruct H as (r & Hr & _). apply Nat.ltb_lt.
    destruct (agentMessages raw); [destruct Hr | simpl; lia]. }
  apply override_test in H. now rewrite H.
Qed.

(** Without one the candidate is the last message's text. *)
Lemma formattedResponse_last (raw : jsstring) (init : list AgentMessage)
    (r : AgentMessage) :
  agentMessages raw = init ++ [r] ->
  ~ hasDataBearing (agentMessages raw) ->
  formattedResponse raw = message r.
Proof.
  intros E H. unfold formattedResponse. fold (agentMessages raw). cbv zeta.
  assert (Nat.ltb 0 (List.length (agentMessages raw)) = true) as ->.
  { rewrite E, length_app. simpl. apply Nat.ltb_lt. lia. }
  match goal with
  | |- (if ?b then _ else _) = _ => destruct b eqn:T
  end.
  - apply override_test in T. contradiction.
  - rewrite E, length_app. simpl List.length.
    replace (List.length init + 1 - 1) with (List.length init) by lia.
    now rewrite nth_middle.
Qed.

(** With an empty sequence the candidate is the raw fallback. *)
Lemma formattedResponse_fallback (raw : jsstring) :
  agentMessages raw = [] ->
  formattedResponse raw = rawFallback raw.
Proof.
  intros E. unfold formattedResponse. fold (agentMessages raw). cbv zeta.
  now rewrite E.
Qed.

Lemma orElse_nonempty (value fallback : jsstring) :
  value <> [] -> orElse value fallback = value.
Proof. destruct value; [congruence | reflexivity]. Qed.

Lemma join_nil (sep : jsstring) (parts : list jsstring) :
  (forall p, In p parts -> p <> []) ->
  join sep parts = [] -> parts = [].
Proof.
  destruct parts as [|p rest]; [reflexivity|]. intros Hne H. exfalso.
  apply (Hne p); [simpl; auto|].
  destruct rest; simpl in H; [exact H|].
  now apply app_eq_nil in H as [H _].
Qed.

Lemma keepRawLine_nonempty (line : jsstring) :
  keepRawLine line = true -> line <> [].
Proof. intros H ->. discriminate. Qed.

End ComposerFacts.

(** ** The claims about the composer *)

Section ComposerClaims.

(** The fallback keeps a line exactly when it is not empty after trimming,
    does not start with [User:] and contains none of the four noise
    markers. *)
Lemma keepRawLine_spec (line : jsstring) :
  keepRawLine line = true <->
  trim line <> [] /\
  ~ (exists t, line = lit "User:" ++ t) /\
  ~ (exists a b, line = a ++ lit "UserWarning" ++ b) /\
  ~ (exists a b, line = a ++ lit "INFO" ++ b) /\
  ~ (exists a b, line = a ++ lit "DEBUG" ++ b) /\
  ~ (exists a b, line = a ++ lit "Warning:" ++ b).
Proof.
  unfold keepRawLine.
  rewrite !andb_true_iff, !negb_true_iff, Nat.ltb_lt.
  rewrite <- startsWith_spec, <- !includes_spec.
  rewrite !not_true_iff_false.
  assert (0 < List.length (trim line) <-> trim line <> []) as ->.
  { destruct (trim line); simpl; split; intros H; try lia; congruence. }
  tauto.
Qed.

(** C1, as stated, fails: with the single line [[Weather]: Sunny] the
    sequence holds a weather message, the concatenation of the qualifying
    texts is empty, and the reply is the sentinel instead. *)
Lemma short_weather_reply_is_not_the_join :
  hasDataBearing (agentMessages (lit "[Weather]: Sunny")) /\
  composedReply (lit "[Weather]: Sunny") <>
    join [LF; LF]
      (map message (filter qualifies (agentMessages (lit "[Weather]: Sunny")))).
Proof.
  split.
  - exists (mkAgentMessage (lit "Weather") (lit "Sunny")).
    split; [vm_compute; auto | right; reflexivity].
  - vm_compute. discriminate.
Qed.

(** C1, amended: when the sequence holds a message of the market-data or
    of the weather-data agent, the reply is the blank-line join, in line
    order, of the texts that are not ['None'] and longer than 10 code
    units, if that join is not empty, and the sentinel otherwise; on
    scenario 1 it is the three texts joined. *)
Theorem data_bearing_reply :
  (forall raw, hasDataBearing (agentMessages raw) ->
     composedReply raw =
       orElse (join [LF; LF]
                 (map message (filter qualifies (agentMessages raw))))
              noResponse) /\
  composedReply scenario1 =
    lit "Cloud cover 85%" ++ [LF; LF] ++ lit "Load down 300MW" ++
    [LF; LF] ++ lit "Deviation confirmed.".
Proof.
  split; [|vm_compute; reflexivity].
  intros raw H. unfold composedReply.
  now rewrite formattedResponse_override.
Qed.

Lemma data_bearing_reply_witness :
  hasDataBearing (agentMessages scenario1) /\
  composedReply scenario1 =
    orElse (join [LF; LF]
              (map message (filter qualifies (agentMessages scenario1))))
           noResponse.
Proof.
  assert (H : hasDataBearing (agentMessages scenario1)).
  { exists (mkAgentMessage (lit "Weather") (lit "Cloud cover 85%")).
    split; [vm_compute; auto | right; reflexivity]. }
  split; [exact H | exact (proj1 data_bearing_reply scenario1 H)].
Defined.

(** C2: when the sequence is not empty and holds no message of either
    data-bearing agent, the reply is the text of its last message; on
    scenario 2 it is the coordinator's text. *)
Theorem last_message_reply :
  (forall raw, agentMessages raw <> [] ->
     ~ hasDataBearing (agentMessages raw) ->
     exists init r, agentMessages raw = init ++ [r] /\
                    composedReply raw = message r) /\
  composedReply scenario2 = lit "Deviation confirmed.".
Proof.
  split; [|vm_compute; reflexivity].
  intros raw Hne Hnd.
  destruct (exists_last Hne) as (init & r & E).
  exists init, r. split; [exact E|].
  unfold composedReply. rewrite (formattedResponse_last raw init r E Hnd).
  apply orElse_nonempty, (agentMessages_text_nonempty raw).
  rewrite E. apply in_or_app. simpl. auto.
Qed.

Lemma last_message_reply_witness :
  exists init r, agentMessages scenario2 = init ++ [r] /\
                 composedReply scenario2 = message r.
Proof.
  apply (proj1 last_message_reply scenario2).
  - vm_compute. discriminate.
  - intros (r & Hr & Ha). vm_compute in Hr.
    destruct Hr as [<- | []]. destruct Ha as [Ha | Ha]; discriminate Ha.
Defined.

(** The two cases of the fallback, shared by the claims about it. *)
Lemma raw_fallback_cases (raw : jsstring) :
  noTaggedLine raw ->
  let kept := filter keepRawLine (split LF raw) in
  (join [LF] kept <> [] -> composedReply raw = join [LF] kept) /\
  (join [LF] kept = [] -> composedReply raw = noResponse).
Proof.
  intros H kept.
  assert (E : composedReply raw = orElse (join [LF] kept) noResponse).
  { unfold composedReply. rewrite formattedResponse_fallback; [reflexivity|].
    apply agentMessages_nil. intros line name text Hin Hm.
    rewrite (H line Hin) in Hm. discriminate. }
  rewrite E. split.
  - apply orElse_nonempty.
  - intros ->. reflexivity.
Qed.

(** C3: when no line matches the tagged format, the reply is the newline
    join of the lines that are not blank after trimming, do not start
    with [User:] and contain none of [UserWarning], [INFO], [DEBUG],
    [Warning:]; when that join is empty the reply is the sentinel. So on
    scenario 3 the reply is the one plain line, and on the empty output
    it is the sentinel. *)
Theorem raw_fallback_reply :
  (forall raw, noTaggedLine raw ->
     let kept := filter keepRawLine (split LF raw) in
     (join [LF] kept <> [] -> composedReply raw = join [LF] kept) /\
     (join [LF] kept = [] -> composedReply raw = noResponse)) /\
  (forall line, keepRawLine line = true <->
     trim line <> [] /\
     ~ (exists t, line = lit "User:" ++ t) /\
     ~ (exists a b, line = a ++ lit "UserWarning" ++ b) /\
     ~ (exists a b, line = a ++ lit "INFO" ++ b) /\
     ~ (exists a b, line = a ++ lit "DEBUG" ++ b) /\
     ~ (exists a b, line = a ++ lit "Warning:" ++ b)) /\
  composedReply scenario3 = lit "Plain diagnostic line" /\
  composedReply [] = noResponse.
Proof.
  split; [|split; [exact keepRawLine_spec | split; vm_compute; reflexivity]].
  intros raw H. exact (raw_fallback_cases raw H).
Qed.

Lemma raw_fallback_reply_witness :
  noTaggedLine scenario3 /\
  composedReply scenario3 =
    join [LF] (filter keepRawLine (split LF scenario3)).
Proof.
  assert (H : noTaggedLine scenario3).
  { intros line Hin. vm_compute in Hin.
    destruct Hin as [<- | [<- | [<- | [<- | []]]]]; reflexivity. }
  split; [exact H|].
  apply (proj1 (proj1 raw_fallback_reply scenario3 H)).
  vm_compute. discriminate.
Defined.

(** C5, as stated, fails: the line [[Weather]: None] matches the tagged
    format under a data-bearing identifier and no text qualifies, yet the
    reply is not the sentinel: the match was dropped at extraction and the
    raw fallback returns the line itself. *)
Lemma none_text_does_not_trigger_override :
  (exists line name text,
      In line (split LF (lit "[Weather]: None")) /\
      agentMatch line = Some (name, text) /\
      (name = CAISO_Market \/ name = Weather)) /\
  join [LF; LF]
    (map message (filter qualifies (agentMessages (lit "[Weather]: None"))))
    = [] /\
  composedReply (lit "[Weather]: None") = lit "[Weather]: None" /\
  composedReply (lit "[Weather]: None") <> noResponse.
Proof.
  split; [|split; [|split]].
  - exists (lit "[Weather]: None"), Weather, NoneText.
    split; [vm_compute; auto | split; [reflexivity | right; reflexivity]].
  - vm_compute. reflexivity.
  - vm_compute. reflexivity.
  - vm_compute. discriminate.
Qed.

(** C5, amended: when a line matches the tagged format under one of the
    two data-bearing identifiers and its text is not ['None'], the
    override takes effect, whether or not that text passes the length
    check: the reply is the join of the qualifying texts, and the sentinel
    when that join is empty. So [[Weather]: Sunny] alone is answered with
    the sentinel, not with [Sunny]. *)
Theorem override_needs_an_extracted_message :
  (forall raw line name text,
     In line (split LF raw) ->
     agentMatch line = Some (name, text) ->
     name = CAISO_Market \/ name = Weather ->
     text <> NoneText ->
     composedReply raw =
       orElse (combinedResponse (agentMessages raw)) noResponse /\
     (combinedResponse (agentMessages raw) = [] ->
      composedReply raw = noResponse)) /\
  composedReply (lit "[Weather]: Sunny") = noResponse.
Proof.
  split; [|vm_compute; reflexivity].
  intros raw line name text Hin Hm Hname Htext.
  assert (H : hasDataBearing (agentMessages raw)).
  { exists (mkAgentMessage name text). split; [|exact Hname].
    apply In_agentMessages. exists line. simpl. auto. }
  assert (E : composedReply raw =
              orElse (combinedResponse (agentMessages raw)) noResponse).
  { unfold composedReply. now rewrite formattedResponse_override. }
  split; [exact E|]. intros Hnil. now rewrite E, Hnil.
Qed.

Lemma override_needs_an_extracted_message_witness :
  composedReply (lit "[Weather]: Sunny") =
    orElse (combinedResponse (agentMessages (lit "[Weather]: Sunny")))
           noResponse /\
  (combinedResponse (agentMessages (lit "[Weather]: Sunny")) = [] ->
   composedReply (lit "[Weather]: Sunny") = noResponse).
Proof.
  apply (proj1 override_needs_an_extracted_message
           (lit "[Weather]: Sunny") (lit "[Weather]: Sunny")
           Weather (lit "Sunny")).
  - vm_compute. auto.
  - reflexivity.
  - right. reflexivity.
  - vm_compute. discriminate.
Defined.

(** C6: when the only line that matches the tagged format has the text
    ['None'], the match is left out, the sequence is empty, and the reply
    is that of the raw fallback. *)
Theorem only_None_match_falls_back
    (raw : jsstring) (before after : list jsstring)
    (line name : jsstring) :
  split LF raw = before ++ line :: after ->
  agentMatch line = Some (name, NoneText) ->
  (forall l, In l (before ++ after) -> agentMatch l = None) ->
  agentMessages raw = [] /\
  composedReply raw = orElse (rawFallback raw) noResponse.
Proof.
  intros Hsplit Hline Hothers.
  assert (E : agentMessages raw = []).
  { apply agentMessages_nil. intros l n t Hin Hm.
    rewrite Hsplit in Hin. apply in_app_or in Hin as [Hin | [<- | Hin]].
    - rewrite (Hothers l) in Hm; [discriminate | apply in_or_app; auto].
    - rewrite Hline in Hm. now inversion Hm.
    - rewrite (Hothers l) in Hm; [discriminate | apply in_or_app; auto]. }
  split; [exact E|].
  unfold composedReply. now rewrite formattedResponse_fallback.
Qed.

Lemma only_None_match_falls_back_witness :
  agentMessages (lit "INFO: boot" ++ [LF] ++ lit "[Weather]: None"
                 ++ [LF] ++ lit "plain text") = [] /\
  composedReply (lit "INFO: boot" ++ [LF] ++ lit "[Weather]: None"
                 ++ [LF] ++ lit "plain text")
  = orElse (rawFallback (lit "INFO: boot" ++ [LF] ++ lit "[Weather]: None"
                         ++ [LF] ++ lit "plain text")) noResponse.
Proof.
  apply (only_None_match_falls_back _
           [lit "INFO: boot"] [lit "plain text"]
           (lit "[Weather]: None") Weather).
  - reflexivity.
  - reflexivity.
  - intros l [<- | [<- | []]]; reflexivity.
Defined.

(** C10: when no line matches the tagged format and some line survives
    the fallback's filter, the lines of the reply are exactly the
    surviving lines of the output, each with all its code units, leading
    and trailing white space included; trimming only decides whether a
    line is kept. *)
Theorem fallback_keeps_lines_verbatim :
  (forall raw, noTaggedLine raw ->
     filter keepRawLine (split LF raw) <> [] ->
     split LF (composedReply raw) = filter keepRawLine (split LF raw)) /\
  composedReply (lit "  padded line   " ++ [LF] ++ lit "   " ++ [LF] ++
                 [9%N] ++ lit "second ")
  = lit "  padded line   " ++ [LF] ++ [9%N] ++ lit "second ".
Proof.
  split; [|vm_compute; reflexivity].
  intros raw H Hkept.
  set (kept := filter keepRawLine (split LF raw)) in *.
  assert (Hjoin : join [LF] kept <> []).
  { intros Hnil. apply Hkept. apply (join_nil [LF]); [|exact Hnil].
    intros p Hp. apply keepRawLine_nonempty.
    now apply filter_In in Hp. }
  rewrite (proj1 (raw_fallback_cases raw H) Hjoin).
  apply split_join; [exact Hkept|].
  intros l Hl. apply (split_no_sep LF raw).
  now apply filter_In in Hl.
Qed.

Lemma fallback_keeps_lines_verbatim_witness :
  split LF (composedReply (lit "  padded line   " ++ [LF] ++ lit "x"))
  = filter keepRawLine (split LF (lit "  padded line   " ++ [LF] ++ lit "x")).
Proof.
  apply (proj1 fallback_keeps_lines_verbatim).
  - intros line Hin. vm_compute in Hin.
    destruct Hin as [<- | [<- | []]]; reflexivity.
  - vm_compute. discriminate.
Defined.

End ComposerClaims.

(** ** The claims about the request handler *)

Section ChildEvents.

(** The [data] listeners only append to the two buffers. *)
Lemma dispatch_data (st : buffers) (events rest : list childEvent) :
  dataOnly events = true ->
  dispatch st (events ++ rest) =
  dispatch (mkBuffers (dataString st ++ stdoutOf events)
                      (errorString st ++ stderrOf events)) rest.
Proof.
  revert st; induction events as [|e events IH]; intros st H.
  - simpl. rewrite !app_nil_r. now destruct st.
  - simpl in H. destruct e; try discriminate; simpl;
      rewrite IH by exact H; simpl; now rewrite <- app_assoc.
Qed.

Lemma onClose_nonzero (code : option Z) (st : buffers) :
  code <> Some 0%Z ->
  onClose code st =
    [ ConsoleError (LogExitCode code);
      ConsoleError (LogPythonError (errorString st));
      processFailure ].
Proof.
  intros H. unfold onClose.
  destruct code as [c|]; [|reflexivity].
  destruct (Z.eqb_spec c 0) as [-> | _]; [congruence | reflexivity].
Qed.

(** C8: the answer after a zero exit is the reply composed from the
    standard-output buffer and nothing else: two runs of the callback
    with the same buffer give the same answer, whatever the rest of the
    state. *)
Theorem reply_depends_only_on_raw_output (st1 st2 : buffers) :
  dataString st1 = dataString st2 ->
  onClose (Some 0%Z) st1 = onClose (Some 0%Z) st2 /\
  onClose (Some 0%Z) st1 =
    [ Send 200 (ResponseBody (composedReply (dataString st1))) ].
Proof.
  intros H. unfold onClose. simpl. now rewrite H.
Qed.

Lemma reply_depends_only_on_raw_output_witness :
  onClose (Some 0%Z) (mkBuffers scenario2 []) =
  onClose (Some 0%Z) (mkBuffers scenario2 (lit "UserWarning: deprecated")).
Proof.
  exact (proj1 (reply_depends_only_on_raw_output
                  (mkBuffers scenario2 [])
                  (mkBuffers scenario2 (lit "UserWarning: deprecated"))
                  eq_refl)).
Defined.

(** Neither the chunking of standard output nor anything written to
    standard error changes the answer after a zero exit. *)
Lemma reply_independent_of_chunking (events1 events2 : list childEvent) :
  dataOnly events1 = true ->
  dataOnly events2 = true ->
  stdoutOf events1 = stdoutOf events2 ->
  dispatch (mkBuffers [] []) (events1 ++ [Close (Some 0%Z)]) =
  dispatch (mkBuffers [] []) (events2 ++ [Close (Some 0%Z)]).
Proof.
  intros H1 H2 E. rewrite !dispatch_data by assumption.
  simpl. unfold onClose. simpl. now rewrite E.
Qed.

End ChildEvents.

(** Requests that pass validation: the body yields a truthy [message], so
    the handler calls [spawn]. *)
Section AcceptedRequest.

Variable env : option jsstring.
Variables body message : jsvalue.
Hypothesis body_message : destructureMessage body = Some message.
Hypothesis message_truthy : toBoolean message = true.

Lemma accepted_request (child : spawnResult) :
  chatHandler env body child =
  match child with
  | SpawnThrows => mkOutcome (spawnCall env message :: catchBlock) false
  | Spawned events =>
      mkOutcome
        (spawnCall env message :: effects (dispatch (mkBuffers [] []) events))
        (unhandledError (dispatch (mkBuffers [] []) events))
  end.
Proof.
  unfold chatHandler. rewrite body_message, message_truthy.
  destruct child; reflexivity.
Qed.

(** After a zero exit the handler answers 200 with the reply composed
    from all that was read from standard output. *)
Lemma zero_exit_sends_reply (events rest : list childEvent) :
  dataOnly events = true ->
  chatHandler env body (Spawned (events ++ Close (Some 0%Z) :: rest)) =
    mkOutcome
      [ spawnCall env message;
        Send 200 (ResponseBody (composedReply (stdoutOf events))) ]
      false.
Proof.
  intros Hdata. rewrite accepted_request.
  rewrite dispatch_data by exact Hdata. reflexivity.
Qed.

(** A synchronous failure of [spawn] reaches the [catch] block, which
    answers 500. *)
Lemma spawn_throw_is_answered :
  chatHandler env body SpawnThrows =
    mkOutcome
      [ spawnCall env message;
        ConsoleError LogBackendError;
        Send 500 (ErrorBody (lit "Failed to get response")) ]
      false.
Proof. now rewrite accepted_request. Qed.

(** C4: when the process exits with a non-zero status (or with none,
    killed by a signal), the handler logs and answers 500 with the
    generic failure; what was read from standard output has no part in
    what it does, and no [response] is sent. *)
Theorem nonzero_exit_reports_failure
    (events rest : list childEvent) (code : option Z) :
  dataOnly events = true ->
  code <> Some 0%Z ->
  chatHandler env body (Spawned (events ++ Close code :: rest)) =
    mkOutcome
      [ spawnCall env message;
        ConsoleError (LogExitCode code);
        ConsoleError (LogPythonError (stderrOf events));
        processFailure ]
      false
  /\ (forall raw err, onClose code (mkBuffers raw err) =
                      onClose code (mkBuffers [] err)).
Proof.
  intros Hdata Hcode. split.
  - rewrite accepted_request, dispatch_data by exact Hdata.
    simpl dispatch. now rewrite onClose_nonzero.
  - intros raw err. now rewrite !onClose_nonzero.
Qed.

(** C7 does not hold of the handler: a process that cannot be started is
    reported by an [error] event of the child, to which the handler has
    attached no listener. The request gets no answer at all, where a
    non-zero exit and a throwing [spawn] both get a 500. *)
Theorem spawn_error_event_goes_unanswered (rest : list childEvent) :
  chatHandler env body (Spawned (ErrorEvent :: rest)) =
    mkOutcome [spawnCall env message] true
  /\ existsb isSend
       (effects (chatHandler env body (Spawned (ErrorEvent :: rest))))
     = false.
Proof.
  assert (E : chatHandler env body (Spawned (ErrorEvent :: rest)) =
              mkOutcome [spawnCall env message] true)
    by now rewrite accepted_request.
  split; [exact E | now rewrite E].
Qed.

End AcceptedRequest.

Lemma nonzero_exit_reports_failure_witness :
  chatHandler None (JObject [(lit "message", JString (lit "why?"))])
    (Spawned ([StdoutData (lit "[Weather]: Cloud cover 85%");
               StderrData (lit "Traceback")] ++ Close (Some 1%Z) :: []))
  = mkOutcome
      [ spawnCall None (JString (lit "why?"));
        ConsoleError (LogExitCode (Some 1%Z));
        ConsoleError (LogPythonError (lit "Traceback"));
        processFailure ]
      false.
Proof.
  refine (proj1 (nonzero_exit_reports_failure None
            (JObject [(lit "message", JString (lit "why?"))])
            (JString (lit "why?")) _ _
            [StdoutData (lit "[Weather]: Cloud cover 85%");
             StderrData (lit "Traceback")] [] (Some 1%Z) _ _)).
  - reflexivity.
  - reflexivity.
  - reflexivity.
  - discriminate.
Defined.

Lemma spawn_error_event_goes_unanswered_witness :
  chatHandler (Some (lit "/nonexistent/python"))
    (JObject [(lit "message", JString (lit "hi"))])
    (Spawned [ErrorEvent])
  = mkOutcome
      [ Spawn (lit "/nonexistent/python")
          [JString (lit "agents/gridpilot_agent.py"); JString (lit "hi")] ]
      true.
Proof.
  refine (proj1 (spawn_error_event_goes_unanswered
            (Some (lit "/nonexistent/python"))
            (JObject [(lit "message", JString (lit "hi"))])
            (JString (lit "hi")) _ _ [])); reflexivity.
Defined.

Section Validation.

(** C9: a body whose [message] is falsy (the empty string among others,
    or no field at all) is answered 400 with [Message is required], and
    [spawn] is not called, whatever the environment would have done. *)
Theorem falsy_message_is_rejected :
  (forall env fields child,
     toBoolean (lookupField (lit "message") fields) = false ->
     chatHandler env (JObject fields) child =
       mkOutcome [Send 400 (ErrorBody (lit "Message is required"))] false
     /\ existsb isSpawn (effects (chatHandler env (JObject fields) child))
        = false) /\
  (forall env child,
     chatHandler env (JObject [(lit "message", JString [])]) child =
       mkOutcome [Send 400 (ErrorBody (lit "Message is required"))] false).
Proof.
  assert (G : forall env fields child,
     toBoolean (lookupField (lit "message") fields) = false ->
     chatHandler env (JObject fields) child =
       mkOutcome [Send 400 (ErrorBody (lit "Message is required"))] false).
  { intros env fields child H. unfold chatHandler. simpl destructureMessage.
    cbv iota. now rewrite H. }
  split.
  - intros env fields child H. split; [now apply G|].
    now rewrite (G env fields child H).
  - intros env child. now apply G.
Qed.

Lemma falsy_message_is_rejected_witness :
  chatHandler None
    (JObject [(lit "user", JString (lit "ana"));
              (lit "message", JNumber (SpecFloat.S754_zero true))])
    (Spawned [StdoutData scenario2; Close (Some 0%Z)])
  = mkOutcome [Send 400 (ErrorBody (lit "Message is required"))] false.
Proof.
  refine (proj1 (proj1 falsy_message_is_rejected None
            [(lit "user", JString (lit "ana"));
             (lit "message", JNumber (SpecFloat.S754_zero true))]
            (Spawned [StdoutData scenario2; Close (Some 0%Z)]) _)).
  reflexivity.
Defined.

End Validation.


(** * Further properties of the composer *)

Section ComposerStructure.

(** A separator in the middle splits the two sides independently. *)
Lemma split_app (sep : char16) (a b : jsstring) :
  split sep (a ++ sep :: b) = split sep a ++ split sep b.
Proof.
  induction a as [|c a IH]; simpl.
  - now rewrite N.eqb_refl.
  - destruct (N.eqb c sep); [now rewrite IH|].
    rewrite IH. pose proof (split_not_nil sep a) as Hnn.
    destruct (split sep a) as [|l ls]; [congruence | reflexivity].
Qed.

Lemma extract_app (l1 l2 : list jsstring) :
  extractAgentResponses (l1 ++ l2) =
  extractAgentResponses l1 ++ extractAgentResponses l2.
Proof. rewrite !extract_in_line_order. apply flat_map_app. Qed.

Lemma lineMessages_unmatched (line : jsstring) :
  agentMatch line = None -> lineMessages line = [].
Proof. intros H. unfold lineMessages, pushAgentMatch. now rewrite H. Qed.

(** The candidate is determined by the message sequence and the fallback. *)
Lemma formattedResponse_congr (raw1 raw2 : jsstring) :
  agentMessages raw1 = agentMessages raw2 ->
  rawFallback raw1 = rawFallback raw2 \/ agentMessages raw1 <> [] ->
  formattedResponse raw1 = formattedResponse raw2.
Proof.
  intros Hm Hf. unfold formattedResponse.
  fold (agentMessages raw1). fold (agentMessages raw2). cbv zeta.
  rewrite <- Hm. destruct (agentMessages raw1) as [|r rs] eqn:E.
  - simpl. destruct Hf as [Hf | Hf]; [exact Hf | congruence].
  - reflexivity.
Qed.

Lemma split_line_between (a l b : jsstring) :
  ~ In LF l ->
  split LF (a ++ LF :: l ++ LF :: b) = split LF a ++ l :: split LF b.
Proof.
  intros Hl. rewrite split_app. f_equal. now apply split_app_sep.
Qed.

Lemma agentMessages_skip_line (a l b : jsstring) :
  ~ In LF l -> agentMatch l = None ->
  agentMessages (a ++ LF :: l ++ LF :: b) = agentMessages (a ++ LF :: b).
Proof.
  intros Hl Hm. unfold agentMessages.
  rewrite split_line_between by exact Hl. rewrite split_app.
  rewrite !extract_app. f_equal.
  change (l :: split LF b) with ([l] ++ split LF b).
  rewrite extract_app, extract_in_line_order. simpl.
  now rewrite lineMessages_unmatched.
Qed.

Lemma agentMessages_concat (a b : jsstring) :
  agentMessages (a ++ LF :: b) = agentMessages a ++ agentMessages b.
Proof.
  unfold agentMessages. now rewrite split_app, extract_app.
Qed.

(** X1: the messages extracted from two outputs put one after the other,
    a newline between them, are the messages of the first followed by the
    messages of the second. *)
Theorem agentMessages_app (a b : jsstring) :
  agentMessages (a ++ LF :: b) = agentMessages a ++ agentMessages b.
Proof. exact (agentMessages_concat a b). Qed.

(** X2: a newline at the end of the output makes no difference to the
    reply. *)
Theorem trailing_newline_ignored (raw : jsstring) :
  composedReply (raw ++ [LF]) = composedReply raw.
Proof.
  unfold composedReply. f_equal. apply formattedResponse_congr.
  - rewrite agentMessages_concat. apply app_nil_r.
  - left. unfold rawFallback. rewrite split_app, filter_app. simpl.
    now rewrite app_nil_r.
Qed.

(** X3: a line that neither matches the tagged format nor passes the
    fallback's filter (a blank line, a logging line) can be inserted
    between two lines of any output without changing the reply. *)
Theorem dropped_line_is_invisible (a l b : jsstring) :
  ~ In LF l ->
  agentMatch l = None ->
  keepRawLine l = false ->
  composedReply (a ++ LF :: l ++ LF :: b) = composedReply (a ++ LF :: b).
Proof.
  intros Hl Hm Hk. unfold composedReply. f_equal.
  apply formattedResponse_congr.
  - now apply agentMessages_skip_line.
  - left. unfold rawFallback.
    rewrite split_line_between by exact Hl. rewrite split_app.
    rewrite !filter_app. simpl. now rewrite Hk.
Qed.

Lemma dropped_line_is_invisible_witness :
  composedReply (lit "first" ++ LF :: lit "INFO: retrying" ++ LF :: lit "second")
  = composedReply (lit "first" ++ LF :: lit "second").
Proof.
  apply (dropped_line_is_invisible (lit "first") (lit "INFO: retrying")
           (lit "second")).
  - vm_compute. intuition discriminate.
  - reflexivity.
  - reflexivity.
Defined.

(** X4: once some line yields a message, a line that does not match the
    tagged format has no influence on the reply, even one the fallback
    would have kept. *)
Theorem untagged_line_is_invisible_beside_messages (a l b : jsstring) :
  ~ In LF l ->
  agentMatch l = None ->
  agentMessages (a ++ LF :: b) <> [] ->
  composedReply (a ++ LF :: l ++ LF :: b) = composedReply (a ++ LF :: b).
Proof.
  intros Hl Hm Hne. unfold composedReply. f_equal.
  apply formattedResponse_congr.
  - now apply agentMessages_skip_line.
  - right. now rewrite agentMessages_skip_line.
Qed.

Lemma untagged_line_is_invisible_beside_messages_witness :
  composedReply (lit "[Coordinator]: Load is stable." ++ LF ::
                 lit "Traceback (most recent call last):" ++ LF ::
                 lit "[Coordinator]: Deviation confirmed.")
  = composedReply (lit "[Coordinator]: Load is stable." ++ LF ::
                   lit "[Coordinator]: Deviation confirmed.").
Proof.
  apply (untagged_line_is_invisible_beside_messages
           (lit "[Coordinator]: Load is stable.")
           (lit "Traceback (most recent call last):")
           (lit "[Coordinator]: Deviation confirmed.")).
  - vm_compute. intuition discriminate.
  - reflexivity.
  - vm_compute. discriminate.
Defined.

(** X5: when no line matches the tagged format and every line passes the
    fallback's filter, the reply is the output itself. *)
Theorem clean_output_is_returned_unchanged (raw : jsstring) :
  noTaggedLine raw ->
  forallb keepRawLine (split LF raw) = true ->
  composedReply raw = raw.
Proof.
  intros Hno Hall.
  assert (Hf : filter keepRawLine (split LF raw) = split LF raw).
  { apply forallb_filter_id. exact Hall. }
  assert (Hraw : raw <> []).
  { intros ->. simpl in Hall. discriminate. }
  pose proof (raw_fallback_cases raw Hno) as [Hkeep _].
  cbv zeta in Hkeep. rewrite Hf, join_split in Hkeep. now apply Hkeep.
Qed.

Lemma clean_output_is_returned_unchanged_witness :
  composedReply (lit "  Load fell by 300 MW" ++ LF :: lit "after 14:00  ")
  = lit "  Load fell by 300 MW" ++ LF :: lit "after 14:00  ".
Proof.
  apply clean_output_is_returned_unchanged.
  - intros line Hin. vm_compute in Hin.
    destruct Hin as [<- | [<- | []]]; reflexivity.
  - reflexivity.
Defined.

End ComposerStructure.

Section ComposerBounds.

Lemma agentMessages_line (raw : jsstring) (r : AgentMessage) :
  In r (agentMessages raw) ->
  In (lit "[" ++ agent r ++ lit "]: " ++ message r) (split LF raw) /\
  agent r <> [] /\ forallb isWord (agent r) = true /\
  message r <> [] /\ message r <> NoneText /\
  forallb (fun x => negb (isLineTerminator x)) (message r) = true.
Proof.
  intros H. apply In_agentMessages in H as (line & Hin & Hm & Hnone).
  apply agentMatch_spec in Hm as (-> & Ha & Hw & Ht & Hl). auto 10.
Qed.

(** X6: every extracted message comes from a line of the output of the
    form [[agent]: message]; its agent is a non-empty run of word
    characters, and its text is non-empty, is not ['None'] and holds no
    line terminator. *)
Theorem extracted_message_shape (raw : jsstring) (r : AgentMessage) :
  In r (agentMessages raw) ->
  In (lit "[" ++ agent r ++ lit "]: " ++ message r) (split LF raw) /\
  agent r <> [] /\ forallb isWord (agent r) = true /\
  message r <> [] /\ message r <> NoneText /\
  forallb (fun x => negb (isLineTerminator x)) (message r) = true.
Proof. exact (agentMessages_line raw r). Qed.

Lemma extracted_message_shape_witness :
  In (lit "[" ++ lit "Weather" ++ lit "]: " ++ lit "Cloud cover 85%")
     (split LF scenario1).
Proof.
  refine (proj1 (extracted_message_shape scenario1
            (mkAgentMessage (lit "Weather") (lit "Cloud cover 85%")) _)).
  vm_compute. auto.
Defined.

(** A line that ends in a carriage return does not match: [.] stops at
    the carriage return and [$] is not there. *)
Lemma agentMatch_CR (body : jsstring) :
  agentMatch (body ++ [13%N]) = None.
Proof.
  destruct (agentMatch (body ++ [13%N])) as [[name text]|] eqn:E;
    [|reflexivity].
  exfalso. apply agentMatch_spec in E as (Hline & _ & _ & Ht & Hl).
  destruct (exists_last Ht) as (text' & x & ->).
  rewrite !app_assoc in Hline. apply app_inj_tail in Hline as [_ <-].
  rewrite forallb_app in Hl. simpl in Hl.
  now rewrite andb_false_r in Hl.
Qed.

(** X7: an output written with CR LF line endings yields no message at
    all, whatever its lines say: each line keeps its carriage return, so
    none matches, and the reply is that of the raw fallback. *)
Theorem crlf_output_has_no_messages (raw : jsstring) :
  (forall line, In line (split LF raw) ->
     line = [] \/ exists body, line = body ++ [13%N]) ->
  agentMessages raw = [] /\
  composedReply raw = orElse (rawFallback raw) noResponse.
Proof.
  intros H.
  assert (E : agentMessages raw = []).
  { apply agentMessages_nil. intros line name text Hin Hm.
    destruct (H line Hin) as [-> | [body ->]].
    - discriminate.
    - rewrite agentMatch_CR in Hm. discriminate. }
  split; [exact E|].
  unfold composedReply. now rewrite formattedResponse_fallback.
Qed.

Lemma crlf_output_has_no_messages_witness :
  agentMessages (lit "[Weather]: Cloud cover 85%" ++ [13%N; LF] ++
                 lit "[Coordinator]: Deviation confirmed." ++ [13%N; LF])
  = [].
Proof.
  refine (proj1 (crlf_output_has_no_messages _ _)).
  intros line Hin. vm_compute in Hin.
  destruct Hin as [<- | [<- | [<- | []]]].
  - right. exists (lit "[Weather]: Cloud cover 85%"). reflexivity.
  - right. exists (lit "[Coordinator]: Deviation confirmed."). reflexivity.
  - left. reflexivity.
Defined.

Lemma join_cons_length (sep x : jsstring) (ls : list jsstring) :
  List.length (join sep (x :: ls)) =
  List.length x +
  match ls with
  | [] => 0
  | _ :: _ => List.length sep + List.length (join sep ls)
  end.
Proof.
  destruct ls as [|y ls]; [simpl; lia|].
  change (join sep (x :: y :: ls)) with (x ++ sep ++ join sep (y :: ls)).
  now rewrite !length_app.
Qed.

Lemma join_In_length (sep l : jsstring) (ls : list jsstring) :
  In l ls -> List.length l <= List.length (join sep ls).
Proof.
  induction ls as [|x ls IH]; [intros []|].
  intros [-> | Hin]; rewrite join_cons_length.
  - lia.
  - specialize (IH Hin). destruct ls; [destruct Hin | lia].
Qed.

Lemma join_filter_length (sep : jsstring) (f : jsstring -> bool)
    (ls : list jsstring) :
  List.length (join sep (filter f ls)) <= List.length (join sep ls).
Proof.
  induction ls as [|x ls IH]; [simpl; lia|].
  simpl filter. rewrite (join_cons_length sep x ls).
  destruct (f x).
  - rewrite join_cons_length.
    destruct (filter f ls) as [|y ys] eqn:E; [lia|].
    destruct ls as [|z zs]; [discriminate | lia].
  - destruct ls as [|z zs]; [simpl; lia | lia].
Qed.

(** A line contributes at most one message, shorter than the line. *)
Lemma lineMessages_length (line : jsstring) :
  lineMessages line = [] \/
  exists r, lineMessages line = [r] /\
            List.length (message r) + 5 <= List.length line.
Proof.
  unfold lineMessages, pushAgentMatch.
  destruct (agentMatch line) as [[name text]|] eqn:E; [|now left].
  destruct (negb (eqb text NoneText)); [|now left].
  right. exists (mkAgentMessage name text). split; [reflexivity|].
  apply agentMatch_spec in E as (-> & Hn & _).
  rewrite !length_app. simpl. destruct name; [congruence | simpl; lia].
Qed.

Lemma combinedResponse_length (lines : list jsstring) :
  List.length (combinedResponse (extractAgentResponses lines)) <=
  List.length (join [LF] lines).
Proof.
  unfold combinedResponse. rewrite extract_in_line_order.
  induction lines as [|l lines IH]; [simpl; lia|].
  simpl flat_map. rewrite filter_app, map_app.
  rewrite (join_cons_length [LF] l lines).
  destruct (lineMessages_length l) as [-> | (r & -> & Hr)].
  - simpl app. destruct lines; [simpl; lia | simpl List.length in *; lia].
  - simpl filter. destruct (qualifies r).
    + simpl app. rewrite join_cons_length.
      destruct (map message (filter qualifies (flat_map lineMessages lines)))
        as [|y ys] eqn:E; [lia|].
      destruct lines as [|z zs]; [discriminate|].
      simpl List.length in *. lia.
    + simpl app. destruct lines; [simpl; lia | simpl List.length in *; lia].
Qed.

(** X8: the reply is the sentinel or is no longer than the output: the
    candidate built from the output never has more code units than the
    output. *)
Theorem reply_no_longer_than_output (raw : jsstring) :
  List.length (formattedResponse raw) <= List.length raw /\
  (composedReply raw = noResponse \/
   List.length (composedReply raw) <= List.length raw).
Proof.
  assert (H : List.length (formattedResponse raw) <= List.length raw).
  { rewrite <- (join_split LF raw) at 2.
    unfold formattedResponse. fold (agentMessages raw). cbv zeta.
    destruct (Nat.ltb 0 (List.length (agentMessages raw))) eqn:Hlen.
    - match goal with
      | |- context [if ?b then _ else _] => destruct b
      end.
      + apply combinedResponse_length.
      + apply Nat.ltb_lt in Hlen.
        assert (Hne : agentMessages raw <> [])
          by (destruct (agentMessages raw); simpl in Hlen; [lia | discriminate]).
        destruct (exists_last Hne) as (init & r & E).
        rewrite E, length_app. simpl List.length.
        replace (List.length init + 1 - 1) with (List.length init) by lia.
        rewrite nth_middle.
        assert (Hin : In r (agentMessages raw))
          by (rewrite E; apply in_or_app; simpl; auto).
        apply agentMessages_line in Hin as (Hin & _).
        apply (join_In_length [LF]) in Hin.
        rewrite !length_app in Hin. lia.
    - apply join_filter_length. }
  split; [exact H|].
  unfold composedReply. destruct (formattedResponse raw); simpl in *;
    [left; reflexivity | right; exact H].
Qed.

Lemma split_blank_line_join (texts : list jsstring) :
  (forall t, In t texts -> t <> [] /\ ~ In LF t) ->
  filter nonEmpty (split LF (join [LF; LF] texts)) = texts.
Proof.
  induction texts as [|t texts IH]; intros H; [reflexivity|].
  destruct (H t (or_introl eq_refl)) as [Hne Hfree].
  assert (Ht : nonEmpty t = true) by (destruct t; [congruence | reflexivity]).
  destruct texts as [|t' rest].
  - simpl join. rewrite split_free by exact Hfree. simpl. now rewrite Ht.
  - change (join [LF; LF] (t :: t' :: rest))
      with (t ++ LF :: ([] ++ LF :: join [LF; LF] (t' :: rest))).
    rewrite split_app_sep by exact Hfree.
    rewrite split_app_sep by (intros []).
    simpl filter. rewrite Ht. f_equal.
    apply IH. intros u Hu. apply H. now right.
Qed.

(** X9: when the override applies and some text qualifies, the non-empty
    lines of the reply are exactly the qualifying texts, in the order of
    their lines in the output: the texts can be read back from the reply. *)
Theorem combined_reply_splits_into_texts (raw : jsstring) :
  hasDataBearing (agentMessages raw) ->
  filter qualifies (agentMessages raw) <> [] ->
  filter nonEmpty (split LF (composedReply raw)) =
  map message (filter qualifies (agentMessages raw)).
Proof.
  intros Hd Hq.
  assert (Htexts : forall t,
            In t (map message (filter qualifies (agentMessages raw))) ->
            t <> [] /\ ~ In LF t).
  { intros t Ht. apply in_map_iff in Ht as (r & <- & Hr).
    apply filter_In in Hr as [Hr _].
    apply agentMessages_line in Hr as (_ & _ & _ & Hne & _ & Hl).
    split; [exact Hne|]. intros Hin.
    rewrite forallb_forall in Hl. specialize (Hl LF Hin). discriminate. }
  unfold composedReply. rewrite formattedResponse_override by exact Hd.
  unfold combinedResponse. rewrite orElse_nonempty.
  - now apply split_blank_line_join.
  - intros Hnil. apply Hq.
    apply (join_nil [LF; LF]) in Hnil.
    + now apply map_eq_nil in Hnil.
    + intros t Ht. now apply Htexts.
Qed.

Lemma combined_reply_splits_into_texts_witness :
  filter nonEmpty (split LF (composedReply scenario1)) =
  [lit "Cloud cover 85%"; lit "Load down 300MW"; lit "Deviation confirmed."].
Proof.
  refine (combined_reply_splits_into_texts scenario1 _ _).
  - exists (mkAgentMessage (lit "Weather") (lit "Cloud cover 85%")).
    split; [vm_compute; auto | right; reflexivity].
  - vm_compute. discriminate.
Defined.

End ComposerBounds.

(** * Further properties of the request handler *)

Section HandlerInvariants.

Lemma onClose_sends (code : option Z) (st : buffers) :
  filter isSend (onClose code st) =
  match code with
  | Some 0%Z => [Send 200 (ResponseBody (composedReply (dataString st)))]
  | _ => [processFailure]
  end.
Proof.
  destruct code as [c|]; [|reflexivity].
  destruct (Z.eqb_spec c 0) as [-> | Hc]; [reflexivity|].
  rewrite onClose_nonzero by congruence.
  destruct c; try reflexivity. congruence.
Qed.

(** The listeners answer only from [close], and only once. *)
Lemma dispatch_sends (st : buffers) (events : list childEvent) :
  filter isSend (effects (dispatch st events)) = [] \/
  exists data code rest,
    events = data ++ Close code :: rest /\ dataOnly data = true /\
    filter isSend (effects (dispatch st events)) =
    filter isSend
      (onClose code (mkBuffers (dataString st ++ stdoutOf data)
                               (errorString st ++ stderrOf data))).
Proof.
  revert st; induction events as [|e events IH]; intros st.
  - now left.
  - destruct e as [chunk | chunk | code |]; simpl dispatch.
    + destruct (IH (mkBuffers (dataString st ++ chunk) (errorString st)))
        as [H | (data & code & rest & -> & Hd & H)]; [now left|].
      right. exists (StdoutData chunk :: data), code, rest.
      repeat split; [exact Hd|]. rewrite H. simpl.
      now rewrite <- app_assoc.
    + destruct (IH (mkBuffers (dataString st) (errorString st ++ chunk)))
        as [H | (data & code & rest & -> & Hd & H)]; [now left|].
      right. exists (StderrData chunk :: data), code, rest.
      repeat split; [exact Hd|]. rewrite H. simpl.
      now rewrite <- app_assoc.
    + right. exists [], code, events. simpl. rewrite !app_nil_r.
      split; [reflexivity | split; [reflexivity | now destruct st]].
    + now left.
Qed.

Lemma dispatch_no_spawn (st : buffers) (events : list childEvent) :
  filter isSpawn (effects (dispatch st events)) = [].
Proof.
  revert st; induction events as [|e events IH]; intros st; [reflexivity|].
  destruct e as [chunk | chunk | code |]; simpl dispatch; try apply IH.
  - unfold onClose. destruct (negb _); reflexivity.
  - reflexivity.
Qed.

(** What a request can be answered with. *)
Lemma chatHandler_sends (env : option jsstring) (body : jsvalue)
    (child : spawnResult) :
  sends (chatHandler env body child) = [] \/
  sends (chatHandler env body child) =
    [Send 500 (ErrorBody (lit "Failed to get response"))] \/
  sends (chatHandler env body child) =
    [Send 400 (ErrorBody (lit "Message is required"))] \/
  exists message data code rest,
    destructureMessage body = Some message /\ toBoolean message = true /\
    child = Spawned (data ++ Close code :: rest) /\ dataOnly data = true /\
    sends (chatHandler env body child) =
    match code with
    | Some 0%Z => [Send 200 (ResponseBody (composedReply (stdoutOf data)))]
    | _ => [processFailure]
    end.
Proof.
  unfold sends, chatHandler.
  destruct (destructureMessage body) as [message|] eqn:Hb;
    [|right; left; reflexivity].
  destruct (toBoolean message) eqn:Ht; simpl negb; cbv iota;
    [|right; right; left; reflexivity].
  destruct child as [|events]; [right; left; reflexivity|].
  cbv zeta. simpl effects. simpl filter.
  destruct (dispatch_sends (mkBuffers [] []) events)
    as [H | (data & code & rest & -> & Hd & H)]; [now left|].
  right; right; right. exists message, data, code, rest.
  repeat split; try assumption.
  rewrite H, onClose_sends. reflexivity.
Qed.

(** X10: whatever the body, the environment and the child do, a request is
    answered at most once and [spawn] is called at most once. *)
Theorem at_most_one_response (env : option jsstring) (body : jsvalue)
    (child : spawnResult) :
  List.length (sends (chatHandler env body child)) <= 1 /\
  List.length (filter isSpawn (effects (chatHandler env body child))) <= 1.
Proof.
  split.
  - destruct (chatHandler_sends env body child)
      as [-> | [-> | [-> | (m & d & code & r & _ & _ & _ & _ & ->)]]];
      simpl; try lia.
    destruct code as [[| |]|]; simpl; lia.
  - unfold chatHandler.
    destruct (destructureMessage body) as [message|]; [|simpl; lia].
    destruct (negb (toBoolean message)); [simpl; lia|].
    destruct child as [|events]; [simpl; lia|].
    cbv zeta. simpl effects. simpl filter.
    rewrite dispatch_no_spawn. simpl. lia.
Qed.

(** X11: a 200 is sent only for a body with a truthy message whose child
    closed with exit status 0 after nothing but [data] events, and then
    it carries the reply composed from all the standard output before the
    [close]. *)
Theorem success_only_after_zero_exit (env : option jsstring)
    (body : jsvalue) (child : spawnResult) (b : replyBody) :
  In (Send 200 b) (effects (chatHandler env body child)) ->
  exists message data rest,
    destructureMessage body = Some message /\ toBoolean message = true /\
    child = Spawned (data ++ Close (Some 0%Z) :: rest) /\
    dataOnly data = true /\
    b = ResponseBody (composedReply (stdoutOf data)).
Proof.
  intros Hin.
  assert (Hs : In (Send 200 b) (sends (chatHandler env body child))).
  { unfold sends. apply filter_In. split; [exact Hin | reflexivity]. }
  destruct (chatHandler_sends env body child)
    as [E | [E | [E | (m & d & code & r & Hb & Ht & Hc & Hd & E)]]];
    rewrite E in Hs.
  - destruct Hs.
  - destruct Hs as [Hs | []]. discriminate Hs.
  - destruct Hs as [Hs | []]. discriminate Hs.
  - exists m, d, r.
    assert (code = Some 0%Z /\ b = ResponseBody (composedReply (stdoutOf d)))
      as [-> ->].
    { destruct code as [[| |]|]; destruct Hs as [Hs | []];
        try discriminate Hs.
      inversion Hs. auto. }
    auto.
Qed.

Lemma success_only_after_zero_exit_witness :
  exists message data rest,
    destructureMessage (JObject [(lit "message", JString (lit "why?"))])
      = Some message /\ toBoolean message = true /\
    Spawned [StdoutData scenario2; Close (Some 0%Z)]
      = Spawned (data ++ Close (Some 0%Z) :: rest) /\
    dataOnly data = true /\
    ResponseBody (lit "Deviation confirmed.")
      = ResponseBody (composedReply (stdoutOf data)).
Proof.
  apply (success_only_after_zero_exit None).
  vm_compute. auto.
Defined.

Lemma chatHandler_answer_cases (env : option jsstring) (body : jsvalue)
    (child : spawnResult) (status : N) (b : replyBody) :
  In (Send status b) (effects (chatHandler env body child)) ->
  (status = 200%N /\ exists r, b = ResponseBody r /\ r <> []) \/
  (status = 400%N /\ b = ErrorBody (lit "Message is required")) \/
  (status = 500%N /\
   (b = ErrorBody (lit "Failed to get response") \/
    b = ErrorBody
          (lit "Failed to process request. Please check server logs."))).
Proof.
  intros Hin.
  assert (Hs : In (Send status b) (sends (chatHandler env body child))).
  { unfold sends. apply filter_In. split; [exact Hin | reflexivity]. }
  destruct (chatHandler_sends env body child)
    as [E | [E | [E | (m & d & code & r & _ & _ & _ & _ & E)]]];
    rewrite E in Hs.
  - destruct Hs.
  - destruct Hs as [Hs | []]. inversion Hs. right; right. auto.
  - destruct Hs as [Hs | []]. inversion Hs. right; left. auto.
  - assert (Hdone : Send status b = processFailure ->
              status = 500%N /\
              b = ErrorBody
                (lit "Failed to process request. Please check server logs."))
      by (intros Hp; inversion Hp; auto).
    destruct code as [[| |]|]; destruct Hs as [Hs | []];
      try (right; right; destruct (Hdone (eq_sym Hs)); auto; fail).
    inversion Hs. left. split; [reflexivity|].
    eexists. split; [reflexivity|].
    unfold composedReply. destruct (formattedResponse (stdoutOf d));
      discriminate.
Qed.

(** X12: every answer has a text: a 200 carries a non-empty [response],
    and any other answer is a 400 or a 500 with one of the handler's
    three error messages. *)
Theorem answers_are_never_empty (env : option jsstring) (body : jsvalue)
    (child : spawnResult) (status : N) (b : replyBody) :
  In (Send status b) (effects (chatHandler env body child)) ->
  (status = 200%N /\ exists r, b = ResponseBody r /\ r <> []) \/
  (status = 400%N /\ b = ErrorBody (lit "Message is required")) \/
  (status = 500%N /\
   (b = ErrorBody (lit "Failed to get response") \/
    b = ErrorBody
          (lit "Failed to process request. Please check server logs."))).
Proof. exact (chatHandler_answer_cases env body child status b). Qed.

Lemma answers_are_never_empty_witness :
  (200%N = 200%N /\
   exists r, ResponseBody (lit "No response generated") = ResponseBody r /\
             r <> []) \/
  (200%N = 400%N /\
   ResponseBody (lit "No response generated")
     = ErrorBody (lit "Message is required")) \/
  (200%N = 500%N /\
   (ResponseBody (lit "No response generated")
      = ErrorBody (lit "Failed to get response") \/
    ResponseBody (lit "No response generated")
      = ErrorBody
          (lit "Failed to process request. Please check server logs."))).
Proof.
  apply (answers_are_never_empty None
           (JObject [(lit "message", JString (lit "hello"))])
           (Spawned [Close (Some 0%Z)])).
  vm_compute. auto.
Defined.

(** X13: as long as the child has not closed, a validated request gets no
    answer: the handler has no timeout of its own. *)
Theorem no_answer_while_child_runs (env : option jsstring)
    (body message : jsvalue) (events : list childEvent) :
  destructureMessage body = Some message ->
  toBoolean message = true ->
  dataOnly events = true ->
  chatHandler env body (Spawned events) =
    mkOutcome [spawnCall env message] false.
Proof.
  intros Hb Ht Hd. rewrite (accepted_request env body message Hb Ht).
  rewrite <- (app_nil_r events). now rewrite dispatch_data by exact Hd.
Qed.

Lemma no_answer_while_child_runs_witness :
  chatHandler None (JObject [(lit "message", JString (lit "why?"))])
    (Spawned [StdoutData scenario1; StderrData (lit "warming up")])
  = mkOutcome [spawnCall None (JString (lit "why?"))] false.
Proof.
  apply no_answer_while_child_runs; reflexivity.
Defined.



(** X15: the external process is started only for a body whose [message]
    is truthy, by a command that is not empty, with the script's path and
    that very message as its two arguments. *)
Theorem spawn_only_for_validated_message (env : option jsstring)
    (body : jsvalue) (child : spawnResult)
    (file : jsstring) (args : list jsvalue) :
  In (Spawn file args) (effects (chatHandler env body child)) ->
  exists message,
    destructureMessage body = Some message /\ toBoolean message = true /\
    file = pythonPath env /\ file <> [] /\
    args = [JString (lit "agents/gridpilot_agent.py"); message].
Proof.
  intros Hin.
  assert (Hpath : pythonPath env <> []).
  { unfold pythonPath. destruct env as [[|c p]|]; discriminate. }
  unfold chatHandler in Hin.
  destruct (destructureMessage body) as [message|] eqn:Hb.
  - destruct (toBoolean message) eqn:Ht; simpl negb in Hin; cbv iota in Hin.
    + assert (Hhead : Spawn file args = spawnCall env message).
      { destruct child as [|events]; simpl effects in Hin.
        - destruct Hin as [Hin | [Hin | [Hin | []]]];
            [now symmetry | discriminate Hin | discriminate Hin].
        - destruct Hin as [Hin | Hin]; [now symmetry|]. exfalso.
          assert (Hf : In (Spawn file args)
                          (filter isSpawn
                             (effects (dispatch (mkBuffers [] []) events))))
            by (apply filter_In; split; [exact Hin | reflexivity]).
          rewrite dispatch_no_spawn in Hf. destruct Hf. }
      inversion Hhead; subst. exists message. auto 6.
    + destruct Hin as [Hin | []]. discriminate Hin.
  - simpl in Hin. destruct Hin as [Hin | [Hin | []]]; discriminate Hin.
Qed.

Lemma spawn_only_for_validated_message_witness :
  exists message,
    destructureMessage (JObject [(lit "message", JString (lit "hi"))])
      = Some message /\ toBoolean message = true /\
    lit "python" = pythonPath (Some []) /\ lit "python" <> [] /\
    [JString (lit "agents/gridpilot_agent.py"); JString (lit "hi")]
      = [JString (lit "agents/gridpilot_agent.py"); message].
Proof.
  apply (spawn_only_for_validated_message (Some [])
           (JObject [(lit "message", JString (lit "hi"))]) SpawnThrows).
  vm_compute. auto.
Defined.

End HandlerInvariants.

(** * Properties of the chat page *)

Section TrimFacts.

Lemma dropWhile_head (p : char16 -> bool) (s rest : jsstring) (c : char16) :
  dropWhile p s = c :: rest -> p c = false.
Proof.
  induction s as [|x s IH]; simpl; [discriminate|].
  destruct (p x) eqn:Hx; [exact IH|].
  intros H. inversion H; subst. exact Hx.
Qed.

Lemma dropWhile_suffix (p : char16 -> bool) (s : jsstring) :
  exists pre, s = pre ++ dropWhile p s.
Proof.
  induction s as [|x s [pre IH]]; simpl; [now exists []|].
  destruct (p x); [|now exists []].
  exists (x :: pre). simpl. now rewrite <- IH.
Qed.

(** [trim] returns the empty string exactly on strings of white space and
    line terminators. *)
Lemma trim_nil (s : jsstring) :
  trim s = [] <-> forall c, In c s -> isTrimmed c = true.
Proof.
  pose proof (trim_nonblank s) as H.
  destruct (trim s) as [|x xs] eqn:E; simpl in H.
  - split; [|reflexivity]. intros _ c Hc.
    destruct (isTrimmed c) eqn:Hp; [reflexivity|].
    destruct H as [_ H]. discriminate H. eauto.
  - split; [discriminate|]. intros Hall. exfalso.
    destruct H as [H _]. destruct (H eq_refl) as (c & Hc & Hp).
    rewrite (Hall c Hc) in Hp. discriminate.
Qed.

(** The first and the last code unit of a trimmed string are neither
    white space nor line terminators. *)
Lemma trim_ends (s : jsstring) :
  (forall c rest, trim s = c :: rest -> isTrimmed c = false) /\
  (forall init c, trim s = init ++ [c] -> isTrimmed c = false).
Proof.
  unfold trim.
  set (outer := dropWhile isTrimmed s).
  set (inner := dropWhile isTrimmed (rev outer)).
  split.
  - intros c rest H.
    destruct (dropWhile_suffix isTrimmed (rev outer)) as [pre Hpre].
    fold inner in Hpre.
    assert (Hinner : inner = rev rest ++ [c]).
    { rewrite <- (rev_involutive inner), H. reflexivity. }
    destruct outer as [|d ds] eqn:Eo.
    + simpl in Hpre. destruct pre; simpl in Hpre; [|discriminate].
      rewrite <- Hpre in Hinner. destruct (rev rest); discriminate.
    + simpl in Hpre. rewrite Hinner, app_assoc in Hpre.
      apply app_inj_tail in Hpre as [_ <-].
      apply (dropWhile_head isTrimmed s ds d). exact Eo.
  - intros init c H.
    assert (Hinner : inner = c :: rev init).
    { rewrite <- (rev_involutive inner), H, rev_app_distr. reflexivity. }
    apply (dropWhile_head isTrimmed (rev outer) (rev init) c). exact Hinner.
Qed.

End TrimFacts.

Section PageFacts.

Variable toStr : jsvalue -> jsstring.




(** X16: an input of nothing but white space and line terminators sends
    nothing: no request is made and the page stays as it is. *)
Theorem blank_input_sends_nothing
    (server : jsvalue -> fetchResult) (p : page) :
  (forall c, In c (inputValue p) -> isTrimmed c = true) ->
  sendMessageStart toStr p = None /\
  sendMessage toStr server p = (p, false).
Proof.
  intros H. apply trim_nil in H.
  assert (E : sendMessageStart toStr p = None).
  { unfold sendMessageStart. cbv zeta. now rewrite H. }
  split; [exact E|]. unfold sendMessage. now rewrite E.
Qed.


End PageFacts.

Lemma blank_input_sends_nothing_witness :
  sendMessage (fun _ => []) (fun _ => FetchRejects)
    (mkPage [] (lit "   " ++ [9%N; LF]) false false true 0)
  = (mkPage [] (lit "   " ++ [9%N; LF]) false false true 0, false).
Proof.
  refine (proj2 (blank_input_sends_nothing (fun _ => []) (fun _ => FetchRejects)
                   (mkPage [] (lit "   " ++ [9%N; LF]) false false true 0) _)).
  intros c Hc. vm_compute in Hc.
  destruct Hc as [<- | [<- | [<- | [<- | [<- | []]]]]]; reflexivity.
Defined.


Section PageAndServer.

Variable toStr : jsvalue -> jsstring.

Lemma sendMessageStart_some (p : page) :
  trim (inputValue p) <> [] ->
  sendMessageStart toStr p =
  Some (mkPage
          (chatHistory p ++
           [bubble (nextNode p) (lit "user") (trim (inputValue p));
            mkElement (S (nextNode p)) [lit "typing-indicator"]
              (lit "typing-indicator") (InnerHTML typingDots)])
          [] true true (inputFocused p) (S (S (nextNode p))),
        JObject [(lit "message", JString (trim (inputValue p)))],
        S (nextNode p)).
Proof.
  intros H. unfold sendMessageStart. cbv zeta.
  destruct (trim (inputValue p)) as [|c m] eqn:E; [congruence|].
  simpl. rewrite <- app_assoc. reflexivity.
Qed.

Lemma dispatch_never_400 (st : buffers) (events : list childEvent)
    (b : replyBody) :
  ~ In (Send 400 b) (effects (dispatch st events)).
Proof.
  intros Hin.
  assert (Hf : In (Send 400 b) (filter isSend (effects (dispatch st events))))
    by (apply filter_In; split; [exact Hin | reflexivity]).
  destruct (dispatch_sends st events) as [E | (d & code & r & _ & _ & E)];
    rewrite E in Hf; [destruct Hf|].
  rewrite onClose_sends in Hf.
  destruct code as [[| |]|]; destruct Hf as [Hf | []]; discriminate Hf.
Qed.

(** X18: what the page sends is the trimmed input, which is not empty and
    neither starts nor ends with white space; the handler never answers
    such a body with the 400 of a missing message. *)
Theorem page_request_passes_validation (p p' : page) (body : jsvalue)
    (indicator : nat) :
  sendMessageStart toStr p = Some (p', body, indicator) ->
  body = JObject [(lit "message", JString (trim (inputValue p)))] /\
  trim (inputValue p) <> [] /\
  (forall c rest, trim (inputValue p) = c :: rest -> isTrimmed c = false) /\
  (forall init c, trim (inputValue p) = init ++ [c] -> isTrimmed c = false) /\
  forall env child b,
    ~ In (Send 400 b) (effects (chatHandler env body child)).
Proof.
  intros H.
  assert (Hne : trim (inputValue p) <> []).
  { intros E. unfold sendMessageStart in H. cbv zeta in H.
    rewrite E in H. discriminate. }
  rewrite (sendMessageStart_some p Hne) in H. inversion H; subst.
  split; [reflexivity|]. split; [exact Hne|].
  destruct (trim_ends (inputValue p)) as [Hfirst Hlast].
  split; [exact Hfirst|]. split; [exact Hlast|].
  intros env child b Hin.
  rewrite (accepted_request env _ (JString (trim (inputValue p)))) in Hin.
  - destruct child as [|events]; simpl effects in Hin.
    + destruct Hin as [Hin | [Hin | [Hin | []]]]; discriminate Hin.
    + destruct Hin as [Hin | Hin]; [discriminate Hin|].
      now apply dispatch_never_400 in Hin.
  - reflexivity.
  - destruct (trim (inputValue p)); [congruence | reflexivity].
Qed.


(** X20: when the page is handed what the handler sent, the bot bubble
    shows the reply as it is for a [response], and [Error: ] followed by
    the message for an [error]; nothing is logged. *)
Theorem server_answer_is_displayed
    (env : option jsstring) (body : jsvalue) (child : spawnResult)
    (status : N) (b : replyBody) (indicator : nat) (p : page) :
  In (Send status b) (effects (chatHandler env body child)) ->
  sendMessageSettle toStr (FetchJson (replyJson b)) indicator p =
  (mkPage
     (filter (fun e => negb (Nat.eqb (node e) indicator)) (chatHistory p)
      ++ [bubble (nextNode p) (lit "bot")
            match b with
            | ResponseBody response => response
            | ErrorBody error => lit "Error: " ++ error
            end])
     (inputValue p) false false true (S (nextNode p)),
   false).
Proof.
  intros Hin.
  assert (Herr : forall e, b = ErrorBody e -> e <> []).
  { intros e ->.
    destruct (chatHandler_answer_cases env body child status _ Hin)
      as [(_ & r & Hr & _) | [(_ & Hr) | (_ & [Hr | Hr])]];
      inversion Hr; discriminate. }
  destruct b as [e | r].
  - specialize (Herr e eq_refl).
    destruct e as [|c e]; [congruence | reflexivity].
  - reflexivity.
Qed.

End PageAndServer.

Lemma page_request_passes_validation_witness :
  JObject [(lit "message", JString (lit "why now?"))] =
  JObject [(lit "message",
            JString (trim (inputValue
              (mkPage [] (lit "  why now? ") false false true 0))))].
Proof.
  refine (proj1
    (page_request_passes_validation (fun _ => [])
       (mkPage [] (lit "  why now? ") false false true 0) _ _ _ _)).
  reflexivity.
Defined.


Lemma server_answer_is_displayed_witness :
  sendMessageSettle (fun _ => [])
    (FetchJson (replyJson (ErrorBody (lit "Message is required")))) 1
    (mkPage [bubble 0 (lit "user") (lit "hi")] [] true true false 2)
  = (mkPage [bubble 0 (lit "user") (lit "hi");
             bubble 2 (lit "bot") (lit "Error: Message is required")]
            [] false false true 3,
     false).
Proof.
  refine (server_answer_is_displayed (fun _ => []) None
            (JObject []) SpawnThrows 400 (ErrorBody (lit "Message is required"))
            1 (mkPage [bubble 0 (lit "user") (lit "hi")] [] true true false 2) _).
  vm_compute. auto.
Defined.

(** * Further properties of the tagged format and of the fallback *)

Section FormatFacts.

(** X21: when no message is extracted, every line of the reply passes the
    fallback's filter: the reply shows no blank line, no line starting
    with [User:] and no line containing [UserWarning], [INFO], [DEBUG] or
    [Warning:], the sentinel included. *)
Theorem fallback_reply_has_no_noise (raw line : jsstring) :
  agentMessages raw = [] ->
  In line (split LF (composedReply raw)) ->
  keepRawLine line = true.
Proof.
  intros E Hin. unfold composedReply in Hin.
  rewrite formattedResponse_fallback in Hin by exact E.
  unfold rawFallback in Hin.
  destruct (filter keepRawLine (split LF raw)) as [|k ks] eqn:Ek.
  - simpl in Hin. vm_compute in Hin. destruct Hin as [<- | []]. reflexivity.
  - assert (Hk : forall l, In l (k :: ks) ->
                   keepRawLine l = true /\ In l (split LF raw)).
    { intros l Hl. rewrite <- Ek in Hl. apply filter_In in Hl. tauto. }
    rewrite orElse_nonempty in Hin.
    + rewrite split_join in Hin.
      * now apply Hk.
      * discriminate.
      * intros l Hl. apply (split_no_sep LF raw). now apply Hk.
    + intros Hnil. apply (join_nil [LF]) in Hnil; [discriminate|].
      intros l Hl. apply keepRawLine_nonempty. now apply Hk.
Qed.

Lemma fallback_reply_has_no_noise_witness :
  keepRawLine (lit "Plain diagnostic line") = true.
Proof.
  apply (fallback_reply_has_no_noise scenario3).
  - reflexivity.
  - vm_compute. auto.
Defined.

(** X22: a line written as [[name]: text], with a non-empty name of word
    characters and a non-empty text free of line terminators, is matched
    with exactly that name and that whole text, whatever the text holds,
    another tag included. *)
Theorem tagged_line_round_trip (name text : jsstring) :
  name <> [] ->
  forallb isWord name = true ->
  text <> [] ->
  forallb (fun x => negb (isLineTerminator x)) text = true ->
  agentMatch (lit "[" ++ name ++ lit "]: " ++ text) = Some (name, text).
Proof.
  intros Hn Hw Ht Hl. apply agentMatch_spec. auto.
Qed.

Lemma tagged_line_round_trip_witness :
  agentMatch (lit "[Coordinator]: see [Weather]: Cloud cover 85%")
  = Some (lit "Coordinator", lit "see [Weather]: Cloud cover 85%").
Proof.
  apply (tagged_line_round_trip (lit "Coordinator")
           (lit "see [Weather]: Cloud cover 85%"));
    (reflexivity || discriminate).
Defined.

End FormatFacts.
